(** * simpleai: the structured-response pipeline and its retry loop

    A shallow embedding of the Go sources of the [simpleai] library:
    the JSON extraction code shared (as two identical copies) by
    [ollama/client.go] and [providers/google/provider.go], the
    [ChatWithRetry] loops of both packages with their error classifiers,
    and the provider cache of [LLMFactory].

    Conventions.
    - A Go [string] is modelled by the sequence of runes that
      [for _, char := range s] yields ([[]rune(s)]); positions are
      positions in that sequence.  Every rune the code compares against
      is ASCII, so a position here and a byte offset there name the same
      character, and what [WriteRune] appends to a builder is read back
      by [range] as the same rune.
    - [int] is [Z]; the sentinel [-1] of [strings.Index] and of
      [start := -1] is kept.
    - [float64] is Rocq's primitive binary64 [float].
    - Standard-library and SDK calls ([json.Unmarshal], the provider's
      network call) are parameters of the development. *)

From Stdlib Require Import ZArith QArith Qminmax List Bool Lia Floats.
From stdpp Require Import gmap strings.
Import ListNotations.
Local Open Scope Z_scope.

(** ** Go strings *)

Definition rune := Z.
Definition gostring := list rune.

(** A Rocq literal read as an ASCII Go string. *)
Definition str (s : string) : gostring :=
  map (fun a => Z.of_N (Ascii.N_of_ascii a)) (String.list_ascii_of_string s).

Definition BACKSLASH : rune := 92.   (* backslash *)
Definition QUOTE : rune := 34.       (* double quote *)
Definition NEWLINE : rune := 10.     (* line feed *)
Definition CARRIAGE : rune := 13.    (* carriage return *)
Definition TAB : rune := 9.          (* horizontal tab *)
Definition LBRACE : rune := 123.     (* opening brace *)
Definition RBRACE : rune := 125.     (* closing brace *)
Definition LBRACKET : rune := 91.    (* opening bracket *)
Definition RBRACKET : rune := 93.    (* closing bracket *)

(** In examples a JSON text is written with an apostrophe wherever the
    text has a double quote. *)
Definition jstr (s : string) : gostring :=
  map (fun r => if r =? 39 then QUOTE else r) (str s).

(** [s[lo:hi]] (the code only slices within bounds). *)
Definition slice (s : gostring) (lo hi : Z) : gostring :=
  firstn (Z.to_nat (hi - lo)) (skipn (Z.to_nat lo) s).

Definition len (s : gostring) : Z := Z.of_nat (List.length s).

Fixpoint runes_eqb (a b : gostring) : bool :=
  match a, b with
  | [], [] => true
  | x :: a', y :: b' => (x =? y) && runes_eqb a' b'
  | _, _ => false
  end.

(** [strings.HasPrefix]. *)
Fixpoint HasPrefix (s prefix : gostring) {struct prefix} : bool :=
  match prefix, s with
  | [], _ => true
  | p :: prefix', c :: s' => (c =? p) && HasPrefix s' prefix'
  | _ :: _, [] => false
  end.

(** [strings.HasSuffix]. *)
Definition HasSuffix (s suffix : gostring) : bool :=
  HasPrefix (rev s) (rev suffix).

(** [strings.Index]: position of the first occurrence, [-1] if none. *)
Fixpoint Index_from (s substr : gostring) (i : Z) : Z :=
  if HasPrefix s substr then i
  else match s with
       | [] => -1
       | _ :: s' => Index_from s' substr (i + 1)
       end.

Definition Index (s substr : gostring) : Z := Index_from s substr 0.

(** [strings.Contains] is [Index(s, substr) >= 0]. *)
Definition Contains (s substr : gostring) : bool := 0 <=? Index s substr.

(** [unicode.IsSpace]. *)
Definition IsSpace (r : rune) : bool :=
  ((9 <=? r) && (r <=? 13)) || (r =? 32) || (r =? 133) || (r =? 160)
  || (r =? 5760) || ((8192 <=? r) && (r <=? 8202))
  || (r =? 8232) || (r =? 8233) || (r =? 8239) || (r =? 8287) || (r =? 12288).

Fixpoint TrimLeftSpace (s : gostring) : gostring :=
  match s with
  | c :: s' => if IsSpace c then TrimLeftSpace s' else s
  | [] => []
  end.

(** [strings.TrimSpace]. *)
Definition TrimSpace (s : gostring) : gostring :=
  rev (TrimLeftSpace (rev (TrimLeftSpace s))).

(** ** The repair pass: [fixUnescapedNewlines] *)

(** One iteration of [for _, char := range jsonStr]: the [switch], then
    [if escaped && char != backslash { escaped = false }].  Returns what is
    written to the builder and the new ([inString], [escaped]). *)
Definition fix_iter (inString escaped : bool) (char : rune)
  : gostring * (bool * bool) :=
  let '(written, inString1, escaped1) :=
    if (char =? BACKSLASH) && negb escaped then
      ([char], inString, true)
    else if (char =? QUOTE) && negb escaped then
      ([char], negb inString, escaped)
    else if (char =? NEWLINE) && inString && negb escaped then
      (str "\n", inString, escaped)
    else if (char =? CARRIAGE) && inString && negb escaped then
      (str "\r", inString, escaped)
    else if (char =? TAB) && inString && negb escaped then
      (str "\t", inString, escaped)
    else
      ([char], inString, escaped) in
  let escaped2 :=
    if escaped1 && negb (char =? BACKSLASH) then false else escaped1 in
  (written, (inString1, escaped2)).

(** The loop, threading the builder and the two flags. *)
Fixpoint fix_loop (chars result : gostring) (inString escaped : bool)
  : gostring * (bool * bool) :=
  match chars with
  | [] => (result, (inString, escaped))
  | char :: rest =>
      let '(written, (inString', escaped')) := fix_iter inString escaped char in
      fix_loop rest (result ++ written) inString' escaped'
  end.

Definition fixUnescapedNewlines (jsonStr : gostring) : gostring :=
  fst (fix_loop jsonStr [] false false).

Definition repairCommonJSONIssues (jsonStr : gostring) : gostring :=
  let repaired := fixUnescapedNewlines jsonStr in
  repaired.

(** The ([inString], [escaped]) flags of the repair loop once it has
    consumed the first [k] characters of [s]. *)
Definition fixScanState (s : gostring) (k : nat) : bool * bool :=
  snd (fix_loop (firstn k s) [] false false).

(** ** The extraction strategies *)

Record BoundState := {
  b_start : Z;          (* start := -1 *)
  b_count : Z;          (* count := 0 *)
  b_inString : bool;    (* inString := false *)
  b_escaped : bool      (* escaped := false *)
}.

Definition bound_init : BoundState :=
  {| b_start := -1; b_count := 0; b_inString := false; b_escaped := false |}.

(** What one loop iteration does: go on with a new state, or [return]. *)
Inductive LoopStep :=
| Next (st : BoundState)
| Return (candidate : gostring).

Definition MD_JSON : gostring := str "```json".
Definition MD_FENCE : gostring := str "```".

Definition nonempty (s : gostring) : bool :=
  match s with [] => false | _ :: _ => true end.

Section Extraction.

(** [json.Unmarshal([]byte(s), &temp) == nil] for [temp interface{}]. *)
Variable jsonUnmarshalOK : gostring -> bool.

Definition isValidJSON (s : gostring) : bool := jsonUnmarshalOK s.

Definition extractFromMarkdown (response marker : gostring) : gostring :=
  let start := Index response marker in
  if start =? -1 then []
  else
    let content := skipn (Z.to_nat (start + len marker)) response in
    let end_ := Index content MD_FENCE in
    if end_ =? -1 then []
    else
      let candidate := TrimSpace (firstn (Z.to_nat end_) content) in
      if isValidJSON candidate then candidate else [].

(** One iteration of [for i, char := range response] in
    [extractJSONBoundaries]. *)
Definition bound_iter (response : gostring) (openChar closeChar : rune)
    (i : Z) (char : rune) (st : BoundState) : LoopStep :=
  if (char =? BACKSLASH) && negb (b_escaped st) then
    (* escaped = true; continue *)
    Next {| b_start := b_start st; b_count := b_count st;
            b_inString := b_inString st; b_escaped := true |}
  else
    let inString :=
      if (char =? QUOTE) && negb (b_escaped st)
      then negb (b_inString st) else b_inString st in
    let escaped := false in
    if negb inString then
      if char =? openChar then
        let start := if b_start st =? -1 then i else b_start st in
        Next {| b_start := start; b_count := b_count st + 1;
                b_inString := inString; b_escaped := escaped |}
      else if char =? closeChar then
        let count := b_count st - 1 in
        if (count =? 0) && negb (b_start st =? -1) then
          let candidate := slice response (b_start st) (i + 1) in
          if isValidJSON candidate then Return candidate
          else
            (* reset for the next potential JSON object *)
            Next {| b_start := -1; b_count := 0;
                    b_inString := inString; b_escaped := escaped |}
        else
          Next {| b_start := b_start st; b_count := count;
                  b_inString := inString; b_escaped := escaped |}
      else
        Next {| b_start := b_start st; b_count := b_count st;
                b_inString := inString; b_escaped := escaped |}
    else
      Next {| b_start := b_start st; b_count := b_count st;
              b_inString := inString; b_escaped := escaped |}.

(** The loop over the characters [chars] that sit at positions
    [i], [i+1], ... of [response]. *)
Fixpoint bound_loop (response : gostring) (openChar closeChar : rune)
    (chars : gostring) (i : Z) (st : BoundState) : LoopStep :=
  match chars with
  | [] => Next st
  | char :: rest =>
      match bound_iter response openChar closeChar i char st with
      | Return candidate => Return candidate
      | Next st' => bound_loop response openChar closeChar rest (i + 1) st'
      end
  end.

Definition extractJSONBoundaries (response : gostring)
    (openChar closeChar : rune) : gostring :=
  match bound_loop response openChar closeChar response 0 bound_init with
  | Return candidate => candidate
  | Next _ => []
  end.

Definition extractWithBraceCounting (response : gostring) : gostring :=
  extractJSONBoundaries response LBRACE RBRACE.

Definition prefixes : list gostring :=
  [MD_JSON; MD_FENCE; str "Here's the JSON:"; str "JSON:"; str "{"; str "["].

Definition suffixes : list gostring := [MD_FENCE; str "}"; str "]"].

(** [for _, prefix := range prefixes { if HasPrefix ... break }]. *)
Fixpoint removePrefix (ps : list gostring) (cleaned : gostring) : gostring :=
  match ps with
  | [] => cleaned
  | prefix :: more =>
      if HasPrefix cleaned prefix
      then TrimSpace (skipn (List.length prefix) cleaned)
      else removePrefix more cleaned
  end.

(** [for _, suffix := range suffixes { if HasSuffix ... && suffix != ... break }]. *)
Fixpoint removeSuffix (ss : list gostring) (cleaned : gostring) : gostring :=
  match ss with
  | [] => cleaned
  | suffix :: more =>
      if HasSuffix cleaned suffix
         && negb (runes_eqb suffix (str "}"))
         && negb (runes_eqb suffix (str "]"))
      then TrimSpace (firstn (List.length cleaned - List.length suffix) cleaned)
      else removeSuffix more cleaned
  end.

Definition extractWithAggressiveCleanup (response : gostring) : gostring :=
  let cleaned := removePrefix prefixes response in
  let cleaned := removeSuffix suffixes cleaned in
  if isValidJSON cleaned then cleaned
  else extractJSONBoundaries cleaned LBRACE RBRACE.

Definition extractJSON (response : gostring) : gostring :=
  (* Strategy 1 *)
  let cleaned := TrimSpace response in
  if isValidJSON cleaned then cleaned
  else
    (* Strategy 2 *)
    let repaired := repairCommonJSONIssues cleaned in
    if isValidJSON repaired then repaired
    else
      (* Strategy 3 *)
      let c3 := if Contains response MD_JSON
                then extractFromMarkdown response MD_JSON else [] in
      if nonempty c3 then c3
      else
        (* Strategy 4 *)
        let c4 := if Contains response MD_FENCE
                  then extractFromMarkdown response MD_FENCE else [] in
        if nonempty c4 then c4
        else
          (* Strategy 5 *)
          let c5 := extractWithBraceCounting response in
          if nonempty c5 then c5
          else
            (* Strategy 6 *)
            let c6 := extractWithAggressiveCleanup response in
            if nonempty c6 then c6 else [].

(** The ([inString], [escaped]) flags of the boundary loop once it has
    consumed the first [k] characters of [s]; [None] if it has
    returned before. *)
Definition boundScanState (openChar closeChar : rune) (s : gostring) (k : nat)
  : option (bool * bool) :=
  match bound_loop s openChar closeChar (firstn k s) 0 bound_init with
  | Next st => Some (b_inString st, b_escaped st)
  | Return _ => None
  end.

End Extraction.

(** ** A JSON syntax checker

    Go's [encoding/json] is not part of the repository.  The theorems
    below hold for every [jsonUnmarshalOK]; the examples instantiate it
    with this checker of the JSON grammar that [encoding/json] scans
    (RFC 8259: values, the four whitespace characters, string escapes,
    no control character inside a string). *)
Module JSON.

Definition is_ws (c : rune) : bool :=
  (c =? 32) || (c =? TAB) || (c =? CARRIAGE) || (c =? NEWLINE).

Definition is_digit (c : rune) : bool := (48 <=? c) && (c <=? 57).

Definition is_hex (c : rune) : bool :=
  is_digit c || ((97 <=? c) && (c <=? 102)) || ((65 <=? c) && (c <=? 70)).

(** The character after a backslash: one of quote, backslash, slash,
    b, f, n, r, t. *)
Definition is_escape (c : rune) : bool :=
  (c =? QUOTE) || (c =? BACKSLASH) || (c =? 47) || (c =? 98) || (c =? 102)
  || (c =? 110) || (c =? 114) || (c =? 116).

Fixpoint skip_ws (s : gostring) : gostring :=
  match s with
  | c :: s' => if is_ws c then skip_ws s' else s
  | [] => []
  end.

(** The rest of a string literal, after its opening quote. *)
Fixpoint scan_string (s : gostring) : option gostring :=
  match s with
  | [] => None
  | c :: s' =>
      if c =? QUOTE then Some s'
      else if c =? BACKSLASH then
        match s' with
        | e :: s'' =>
            if is_escape e then scan_string s''
            else if e =? 117 then
              match s'' with
              | h1 :: h2 :: h3 :: h4 :: s5 =>
                  if is_hex h1 && is_hex h2 && is_hex h3 && is_hex h4
                  then scan_string s5 else None
              | _ => None
              end
            else None
        | [] => None
        end
      else if c <? 32 then None
      else scan_string s'
  end.

Fixpoint skip_digits (s : gostring) : gostring :=
  match s with
  | c :: s' => if is_digit c then skip_digits s' else s
  | [] => []
  end.

(** One or more digits. *)
Definition scan_digits1 (s : gostring) : option gostring :=
  match s with
  | c :: s' => if is_digit c then Some (skip_digits s') else None
  | [] => None
  end.

Definition scan_exponent (s : gostring) : option gostring :=
  match s with
  | c :: s' =>
      if (c =? 101) || (c =? 69) then
        match s' with
        | sign :: s'' =>
            if (sign =? 43) || (sign =? 45) then scan_digits1 s''
            else scan_digits1 s'
        | [] => None
        end
      else Some s
  | [] => Some s
  end.

Definition scan_fraction (s : gostring) : option gostring :=
  match s with
  | c :: s' =>
      if c =? 46 then
        match scan_digits1 s' with
        | Some r => scan_exponent r
        | None => None
        end
      else scan_exponent s
  | [] => Some s
  end.

(** A number, from its first digit on (after an optional minus). *)
Definition scan_int (s : gostring) : option gostring :=
  match s with
  | c :: s' =>
      if c =? 48 then scan_fraction s'
      else if is_digit c then scan_fraction (skip_digits s')
      else None
  | [] => None
  end.

Definition scan_literal (lit s : gostring) : option gostring :=
  if HasPrefix s lit then Some (skipn (List.length lit) s) else None.

Fixpoint scan_value (fuel : nat) (s : gostring) : option gostring :=
  match fuel with
  | O => None
  | S fuel' =>
      match s with
      | [] => None
      | c :: s' =>
          if c =? LBRACE then
            match skip_ws s' with
            | d :: s'' =>
                if d =? RBRACE then Some s''
                else scan_members fuel' (d :: s'')
            | [] => None
            end
          else if c =? LBRACKET then
            match skip_ws s' with
            | d :: s'' =>
                if d =? RBRACKET then Some s''
                else scan_elements fuel' (d :: s'')
            | [] => None
            end
          else if c =? QUOTE then scan_string s'
          else if c =? 45 then scan_int s'
          else if is_digit c then scan_int s
          else if c =? 116 then scan_literal (str "true") s
          else if c =? 102 then scan_literal (str "false") s
          else if c =? 110 then scan_literal (str "null") s
          else None
      end
  end

(** [key : value] pairs up to the closing brace. *)
with scan_members (fuel : nat) (s : gostring) : option gostring :=
  match fuel with
  | O => None
  | S fuel' =>
      match s with
      | q :: s' =>
          if q =? QUOTE then
            match scan_string s' with
            | Some r =>
                match skip_ws r with
                | colon :: r' =>
                    if colon =? 58 then
                      match scan_value fuel' (skip_ws r') with
                      | Some r'' =>
                          match skip_ws r'' with
                          | d :: r3 =>
                              if d =? RBRACE then Some r3
                              else if d =? 44
                              then scan_members fuel' (skip_ws r3)
                              else None
                          | [] => None
                          end
                      | None => None
                      end
                    else None
                | [] => None
                end
            | None => None
            end
          else None
      | [] => None
      end
  end

(** Values up to the closing bracket. *)
with scan_elements (fuel : nat) (s : gostring) : option gostring :=
  match fuel with
  | O => None
  | S fuel' =>
      match scan_value fuel' s with
      | Some r =>
          match skip_ws r with
          | d :: r' =>
              if d =? RBRACKET then Some r'
              else if d =? 44 then scan_elements fuel' (skip_ws r')
              else None
          | [] => None
          end
      | None => None
      end
  end.

(** One value between optional whitespace, and nothing else. *)
Definition valid (s : gostring) : bool :=
  match scan_value (2 * List.length s + 2) (skip_ws s) with
  | Some r => negb (nonempty (skip_ws r))
  | None => false
  end.

End JSON.

(** ** Errors and the retry policy (package [simpleai]) *)

Inductive ErrType :=
| ErrConnectionFailed | ErrTimeout | ErrInvalidResponse | ErrJSONParseFailed
| ErrModelNotAvailable | ErrRateLimitExceeded | ErrInvalidConfig
| ErrOperationFailed.

(** [LLMError]; [LastAttempt: time.Now()] is left out, and [Cause] holds
    the text of the wrapped error. *)
Record LLMError := {
  err_Type : ErrType;
  err_Message : gostring;
  Retryable : bool;
  Operation : gostring;
  RetryCount : Z;
  Cause : option gostring
}.

Definition NewLLMError (errType : ErrType) (message operation : gostring)
    (retryable : bool) (retryCount : Z) (cause : option gostring) : LLMError :=
  {| err_Type := errType; err_Message := message; Retryable := retryable;
     Operation := operation; RetryCount := retryCount; Cause := cause |}.

(** A Go [error] value: a pointer to an [LLMError], or an error of
    another type, of which only the text matters. *)
Inductive error :=
| LLMErr (e : LLMError)
| OtherErr (text : gostring)
| WrapErr (text : gostring) (cause : error).   (* fmt.Errorf with %w *)

(** The type assertion of [err] to a pointer to [LLMError] succeeds on
    that first case only. *)
Definition IsRetryable (err : error) : bool :=
  match err with
  | LLMErr llmErr => Retryable llmErr
  | OtherErr _ | WrapErr _ _ => false
  end.

(** [RetryConfig]; a [time.Duration] is a number of nanoseconds. *)
Record RetryConfig := {
  MaxRetries : Z;
  BaseDelay : Z;
  MaxDelay : Z;
  BackoffFactor : float
}.

Definition Second : Z := 1000000000.

Definition DefaultRetryConfig : RetryConfig :=
  {| MaxRetries := 3; BaseDelay := 2 * Second; MaxDelay := 30 * Second;
     BackoffFactor := 2%float |}.

(** [for i := 0; i < exp; i++ { result *= base }]. *)
Fixpoint pow_loop (n : nat) (base result : float) : float :=
  match n with
  | O => result
  | S n' => pow_loop n' base (result * base)%float
  end.

Definition pow (base : float) (exp : Z) : float :=
  pow_loop (Z.to_nat exp) base 1%float.

(** The conversion [float64(d)] of an integer: round to nearest even. *)
Definition float64_of_int (z : Z) : float :=
  SF2Prim (binary_normalize prec emax z 0 false).

(** The conversion [time.Duration(f)] of a [float64]: the fraction is
    dropped.  When the value does not fit [int64] Go leaves the result to
    the implementation: [None]. *)
Definition int64_of_float64 (f : float) : option Z :=
  match Prim2SF f with
  | S754_zero _ => Some 0
  | S754_finite s m e =>
      let magnitude := Z.shiftl (Z.pos m) e in
      let v := if s then - magnitude else magnitude in
      if (- 2 ^ 63 <=? v) && (v <? 2 ^ 63) then Some v else None
  | S754_infinity _ | S754_nan => None
  end.

(** The delay slept before [attempt] (lines [delay := ...] to
    [delay = retryConfig.MaxDelay]). *)
Definition backoffDelay (retryConfig : RetryConfig) (attempt : Z) : option Z :=
  match int64_of_float64
          (float64_of_int (BaseDelay retryConfig)
           * pow (BackoffFactor retryConfig) (attempt - 1))%float with
  | Some delay =>
      Some (if MaxDelay retryConfig <? delay then MaxDelay retryConfig else delay)
  | None => None
  end.

(** ** The chat requests and what a run of the retry loop does *)

Record Message := { Role : gostring; Content : gostring }.

(** What happens during a run, in order. *)
Inductive Event :=
| Sleep (delay : option Z)     (* time.Sleep(delay) *)
| Call (attempt : Z).          (* the network call of this attempt *)

(** What the network call of an attempt comes back with: an error, of
    which the loop reads the text only, or the text of the response. *)
Inductive Reply :=
| Failure (errStr : gostring)
| Success (text : gostring).

(** [responsePreview]; [len] and [[:200]] count bytes in Go and runes
    here, the same for ASCII text. *)
Definition preview (s : gostring) : gostring :=
  if 200 <? len s then firstn 200 s ++ str "..." else s.

Section Requests.

(** The type of decoded values; [T] decodes a JSON text into the
    caller's shape ([json.Unmarshal(jsonStr, targetType)]) or gives the
    text of the error. *)
Variable Data : Type.

Record ChatRequest := {
  SystemPrompt : gostring;
  Messages : list Message;
  T : option (gostring -> Data + gostring)
}.

Record ChatResponse := {
  resp_Message : gostring;
  resp_Data : option Data
}.

Definition emptyResponse : ChatResponse :=
  {| resp_Message := []; resp_Data := None |}.

(** What [ChatWithRetry] returns, with the events of the run. *)
Record Run := {
  run_response : ChatResponse;
  run_error : option error;
  run_events : list Event
}.

Definition before (evs : list Event) (r : Run) : Run :=
  {| run_response := run_response r; run_error := run_error r;
     run_events := evs ++ run_events r |}.

Definition finish (resp : ChatResponse) (err : option error) : Run :=
  {| run_response := resp; run_error := err; run_events := [] |}.

(** The events that open an attempt: the backoff sleep when
    [attempt > 0], then the call. *)
Definition attemptEvents (retryConfig : RetryConfig) (attempt : Z) : list Event :=
  (if 0 <? attempt then [Sleep (backoffDelay retryConfig attempt)] else [])
  ++ [Call attempt].

End Requests.

Arguments resp_Message {Data}.
Arguments resp_Data {Data}.
Arguments run_response {Data}.
Arguments run_error {Data}.
Arguments run_events {Data}.
Arguments T {Data}.
Arguments emptyResponse {Data}.
Arguments finish {Data}.
Arguments before {Data}.

(** ** Package [ollama]: [client.go] *)
Module Ollama.

Definition classifyError (errStr : gostring) (attempt : Z)
    (operation : gostring) : LLMError :=
  if Contains errStr (str "connection refused")
     || Contains errStr (str "no such host")
     || Contains errStr (str "network is unreachable") then
    NewLLMError ErrConnectionFailed (str "connection to Ollama service failed")
      operation true attempt (Some errStr)
  else if Contains errStr (str "timeout")
          || Contains errStr (str "context deadline exceeded") then
    NewLLMError ErrTimeout (str "request timed out")
      operation true attempt (Some errStr)
  else if Contains errStr (str "model not found")
          || Contains errStr (str "model is not available") then
    NewLLMError ErrModelNotAvailable (str "requested model not available")
      operation false attempt (Some errStr)
  else
    NewLLMError ErrOperationFailed (str "operation failed")
      operation true attempt (Some errStr).

Section Chat.

Variable Data : Type.
Variable jsonUnmarshalOK : gostring -> bool.
(** [call attempt]: the outcome of [c.ollamaClient.Chat] in that
    attempt; [Success text] when it returns no error, [text] being
    what the handler has accumulated in [finalResponse]. *)
Variable call : Z -> Reply.
Variable request : ChatRequest Data.
Variable retryConfig : RetryConfig.

(** The loop [for attempt := 0; attempt <= retryConfig.MaxRetries;
    attempt++], with [remaining] iterations to go: [remaining = 0]
    is [attempt > MaxRetries]. *)
Fixpoint attempts (remaining : nat) (attempt : Z) (lastErr : option error)
  : Run Data :=
  match remaining with
  | O => finish emptyResponse lastErr
  | S remaining' =>
      before (attemptEvents retryConfig attempt)
        match call attempt with
        | Failure errStr =>
            let lastErr := LLMErr (classifyError errStr attempt (str "chat")) in
            if (attempt <? MaxRetries retryConfig) && IsRetryable lastErr
            then attempts remaining' (attempt + 1) (Some lastErr)
            else finish emptyResponse (Some lastErr)
        | Success finalResponse =>
            match T request with
            | Some targetType =>
                let jsonStr := extractJSON jsonUnmarshalOK finalResponse in
                if negb (nonempty jsonStr) then
                  let lastErr := LLMErr (NewLLMError ErrJSONParseFailed
                    (str "no valid JSON found in response") (str "chat")
                    true attempt
                    (Some (str "extractJSON failed - response preview: "
                           ++ preview finalResponse))) in
                  if attempt <? MaxRetries retryConfig
                  then attempts remaining' (attempt + 1) (Some lastErr)
                  else finish emptyResponse (Some lastErr)
                else
                  match targetType jsonStr with
                  | inr errText =>
                      let lastErr := LLMErr (NewLLMError ErrJSONParseFailed
                        (str "failed to parse JSON response") (str "chat")
                        true attempt
                        (Some (str "unmarshal error: " ++ errText
                               ++ str " - extracted JSON preview: "
                               ++ preview jsonStr))) in
                      if attempt <? MaxRetries retryConfig
                      then attempts remaining' (attempt + 1) (Some lastErr)
                      else finish emptyResponse (Some lastErr)
                  | inl structuredData =>
                      finish {| resp_Message := finalResponse;
                                resp_Data := Some structuredData |} None
                  end
            | None =>
                finish {| resp_Message := finalResponse;
                          resp_Data := None |} None
            end
        end
  end.

Definition ChatWithRetry : Run Data :=
  attempts (Z.to_nat (MaxRetries retryConfig + 1)) 0 None.

End Chat.

End Ollama.

(** ** Package [google]: [provider.go] *)
Module Google.

Definition classifyError (errStr : gostring) (attempt : Z)
    (operation : gostring) : LLMError :=
  if Contains errStr (str "connection refused")
     || Contains errStr (str "no such host")
     || Contains errStr (str "network is unreachable") then
    NewLLMError ErrConnectionFailed (str "connection to Google API failed")
      operation true attempt (Some errStr)
  else if Contains errStr (str "timeout")
          || Contains errStr (str "context deadline exceeded")
          || Contains errStr (str "deadline exceeded") then
    NewLLMError ErrTimeout (str "request timed out")
      operation true attempt (Some errStr)
  else if Contains errStr (str "authentication")
          || Contains errStr (str "unauthorized")
          || Contains errStr (str "API key")
          || Contains errStr (str "invalid api key") then
    NewLLMError ErrInvalidConfig (str "authentication failed")
      operation false attempt (Some errStr)
  else if Contains errStr (str "rate limit")
          || Contains errStr (str "quota exceeded")
          || Contains errStr (str "resource exhausted") then
    NewLLMError ErrRateLimitExceeded (str "rate limit exceeded")
      operation true attempt (Some errStr)
  else if Contains errStr (str "model not found")
          || Contains errStr (str "invalid model")
          || Contains errStr (str "model is not available") then
    NewLLMError ErrModelNotAvailable (str "requested model not available")
      operation false attempt (Some errStr)
  else
    NewLLMError ErrOperationFailed (str "operation failed")
      operation true attempt (Some errStr).

Section Chat.

Variable Data : Type.
Variable jsonUnmarshalOK : gostring -> bool.
(** [call attempt]: the outcome of [p.client.Models.GenerateContent]
    in that attempt; [Success text] when it returns no error, [text]
    being [resp.Text()], or the empty string when [resp] is nil. *)
Variable call : Z -> Reply.
Variable request : ChatRequest Data.
Variable retryConfig : RetryConfig.

Fixpoint attempts (remaining : nat) (attempt : Z) (lastErr : option error)
  : Run Data :=
  match remaining with
  | O => finish emptyResponse lastErr
  | S remaining' =>
      before (attemptEvents retryConfig attempt)
        match call attempt with
        | Failure errStr =>
            let lastErr := LLMErr (classifyError errStr attempt (str "chat")) in
            if (attempt <? MaxRetries retryConfig) && IsRetryable lastErr
            then attempts remaining' (attempt + 1) (Some lastErr)
            else finish emptyResponse (Some lastErr)
        | Success finalResponse =>
            if negb (nonempty finalResponse) then
              let lastErr := LLMErr (NewLLMError ErrInvalidResponse
                (str "empty response from Google API") (str "chat")
                true attempt None) in
              if attempt <? MaxRetries retryConfig
              then attempts remaining' (attempt + 1) (Some lastErr)
              else finish emptyResponse (Some lastErr)
            else
            match T request with
            | Some targetType =>
                let jsonStr := extractJSON jsonUnmarshalOK finalResponse in
                if negb (nonempty jsonStr) then
                  let lastErr := LLMErr (NewLLMError ErrJSONParseFailed
                    (str "no valid JSON found in response") (str "chat")
                    true attempt
                    (Some (str "extractJSON failed - response preview: "
                           ++ preview finalResponse))) in
                  if attempt <? MaxRetries retryConfig
                  then attempts remaining' (attempt + 1) (Some lastErr)
                  else finish emptyResponse (Some lastErr)
                else
                  match targetType jsonStr with
                  | inr errText =>
                      let lastErr := LLMErr (NewLLMError ErrJSONParseFailed
                        (str "failed to parse JSON response") (str "chat")
                        true attempt
                        (Some (str "unmarshal error: " ++ errText
                               ++ str " - extracted JSON preview: "
                               ++ preview jsonStr))) in
                      if attempt <? MaxRetries retryConfig
                      then attempts remaining' (attempt + 1) (Some lastErr)
                      else finish emptyResponse (Some lastErr)
                  | inl structuredData =>
                      finish {| resp_Message := finalResponse;
                                resp_Data := Some structuredData |} None
                  end
            | None =>
                finish {| resp_Message := finalResponse;
                          resp_Data := None |} None
            end
        end
  end.

Definition ChatWithRetry : Run Data :=
  attempts (Z.to_nat (MaxRetries retryConfig + 1)) 0 None.

End Chat.

End Google.

(** ** Package [simpleai]: the provider registry and [LLMFactory] *)
Module Factory.

Record Model := { Name : gostring }.

Record ProviderConfig := {
  Host : gostring;
  APIKey : gostring;
  DefaultModel : gostring;
  Timeout : Z;
  RetryAttempts : Z;
  RateLimit : Z;
  ExtraSettings : gmap gostring gostring
}.

Record FactoryConfig := {
  DefaultProvider : gostring;
  Providers : gmap gostring ProviderConfig;
  ModelPreferences : gmap gostring gostring;
  FallbackProviders : list gostring
}.

Definition emptyConfig : FactoryConfig :=
  {| DefaultProvider := []; Providers := ∅; ModelPreferences := ∅;
     FallbackProviders := [] |}.

(** The values that the code stores in a [map[string]interface{}]. *)
Inductive ConfigValue :=
| VString (s : gostring)
| VInt (n : Z).

Section Factory.

(** The provider instances (values of the interface [Provider]). *)
Variable Provider : Type.

(** [ProviderConstructor]: the result of running a constructor on a
    configuration map. *)
Definition ProviderConstructor : Type :=
  gmap gostring ConfigValue -> Provider + error.

Record ProviderRegistry := {
  providers : gmap gostring ProviderConstructor
}.

Record LLMFactory := {
  registry : ProviderRegistry;
  config : FactoryConfig;
  providerCache : gmap gostring Provider;
  modelCache : gmap gostring (list Model)
}.

(** A method call: what it returns, the factory afterwards, and the
    constructor invocations it made, in order. *)
Record Outcome (A : Type) := {
  result : A;
  factory : LLMFactory;
  constructed : list (gostring * gmap gostring ConfigValue)
}.
Arguments result {A}.
Arguments factory {A}.
Arguments constructed {A}.

Definition NewLLMFactory : LLMFactory :=
  {| registry := {| providers := ∅ |}; config := emptyConfig;
     providerCache := ∅; modelCache := ∅ |}.

Definition RegisterProvider (f : LLMFactory) (name : gostring)
    (constructor : ProviderConstructor) : LLMFactory :=
  {| registry := {| providers := <[name := constructor]> (providers (registry f)) |};
     config := config f; providerCache := providerCache f;
     modelCache := modelCache f |}.

(** [ProviderRegistry.Create]. *)
Definition Create (r : ProviderRegistry) (name : gostring)
    (cfg : gmap gostring ConfigValue)
  : (Provider + error) * list (gostring * gmap gostring ConfigValue) :=
  match providers r !! name with
  | None =>
      (inr (LLMErr (NewLLMError ErrInvalidConfig
              (str "provider not found: " ++ name)
              (str "provider_creation") false 0 None)), [])
  | Some constructor => (constructor cfg, [(name, cfg)])
  end.

Definition createProviderUnsafe (f : LLMFactory) (providerName : gostring)
    (cfg : gmap gostring ConfigValue) : Outcome (Provider + error) :=
  match providerCache f !! providerName with
  | Some provider =>
      {| result := inl provider; factory := f; constructed := [] |}
  | None =>
      match Create (registry f) providerName cfg with
      | (inr err, calls) =>
          {| result := inr (WrapErr (str "failed to create provider "
                                     ++ providerName) err);
             factory := f; constructed := calls |}
      | (inl provider, calls) =>
          {| result := inl provider;
             factory := {| registry := registry f; config := config f;
                           providerCache :=
                             <[providerName := provider]> (providerCache f);
                           modelCache := modelCache f |};
             constructed := calls |}
      end
  end.

(** [CreateProvider] takes the lock and calls [createProviderUnsafe]. *)
Definition CreateProvider (f : LLMFactory) (providerName : gostring)
    (cfg : gmap gostring ConfigValue) : Outcome (Provider + error) :=
  createProviderUnsafe f providerName cfg.

(** The configuration map that [CreateProviderFromConfig] builds. *)
Definition configMap (providerConfig : ProviderConfig)
  : gmap gostring ConfigValue :=
  (VString <$> ExtraSettings providerConfig)
  ∪ (<[str "host" := VString (Host providerConfig)]>
     (<[str "api_key" := VString (APIKey providerConfig)]>
     (<[str "default_model" := VString (DefaultModel providerConfig)]>
     (<[str "timeout" := VInt (Timeout providerConfig)]>
     (<[str "retry_attempts" := VInt (RetryAttempts providerConfig)]>
     (<[str "rate_limit" := VInt (RateLimit providerConfig)]> ∅)))))).

Definition CreateProviderFromConfig (f : LLMFactory) (providerName : gostring)
  : Outcome (Provider + error) :=
  match Providers (config f) !! providerName with
  | None =>
      {| result := inr (LLMErr (NewLLMError ErrInvalidConfig
                          (str "no configuration found for provider: "
                           ++ providerName)
                          (str "provider_creation") false 0 None));
         factory := f; constructed := [] |}
  | Some providerConfig =>
      CreateProvider f providerName (configMap providerConfig)
  end.

(** [LoadConfig]: the error it returns ([None] is nil) and the
    factory afterwards. *)
Definition LoadConfig (f : LLMFactory) (c : FactoryConfig)
  : option error * LLMFactory :=
  if negb (nonempty (DefaultProvider c)) then
    (Some (LLMErr (NewLLMError ErrInvalidConfig
             (str "default provider must be specified")
             (str "load_config") false 0 None)), f)
  else if Nat.eqb (size (Providers c)) 0 then
    (Some (LLMErr (NewLLMError ErrInvalidConfig
             (str "at least one provider must be configured")
             (str "load_config") false 0 None)), f)
  else
    match Providers c !! DefaultProvider c with
    | None =>
        (Some (LLMErr (NewLLMError ErrInvalidConfig
                 (str "default provider " ++ DefaultProvider c
                  ++ str " not found in provider configurations")
                 (str "load_config") false 0 None)), f)
    | Some _ =>
        (None, {| registry := registry f; config := c;
                  providerCache := ∅; modelCache := ∅ |})
    end.

Definition ClearModelCache (f : LLMFactory) : LLMFactory :=
  {| registry := registry f; config := config f;
     providerCache := providerCache f; modelCache := ∅ |}.

Definition ClearProviderCache (f : LLMFactory) : LLMFactory :=
  {| registry := registry f; config := config f;
     providerCache := ∅; modelCache := modelCache f |}.

End Factory.

Arguments result {Provider A}.
Arguments factory {Provider A}.
Arguments constructed {Provider A}.
Arguments providers {Provider}.
Arguments registry {Provider}.
Arguments config {Provider}.
Arguments providerCache {Provider}.
Arguments modelCache {Provider}.

End Factory.

(** ** Vocabulary of the statements *)

(** [c] occurs in [r] as a contiguous run of characters. *)
Definition Substring (c r : gostring) : Prop :=
  exists pre post, r = pre ++ c ++ post.

(** The scanner as the specification words it: a backslash that is not
    itself escaped marks the next character as escaped, an unescaped
    quote toggles the in-string flag, anything else is inert; the
    escaped mark lasts for one character. *)
Definition spec_scan_step (st : bool * bool) (char : rune) : bool * bool :=
  let '(inString, escaped) := st in
  if (char =? BACKSLASH) && negb escaped then (inString, true)
  else if (char =? QUOTE) && negb escaped then (negb inString, false)
  else (inString, false).

Definition spec_scan (s : gostring) : bool * bool :=
  fold_left spec_scan_step s (false, false).

(** No backslash directly follows a backslash. *)
Fixpoint noDoubleBackslash (s : gostring) : bool :=
  match s with
  | c :: (d :: _) as rest =>
      negb ((c =? BACKSLASH) && (d =? BACKSLASH)) && noDoubleBackslash rest
  | _ => true
  end.






(** The events of [n] attempts in a row, from attempt [from] on. *)
Fixpoint eventsOfAttempts (retryConfig : RetryConfig) (from : Z) (n : nat)
  : list Event :=
  match n with
  | O => []
  | S n' =>
      attemptEvents retryConfig from ++ eventsOfAttempts retryConfig (from + 1) n'
  end.

(** The rational number that a finite [float64] stands for. *)
Definition Q_of_float64 (f : float) : Q :=
  match Prim2SF f with
  | S754_finite s m e =>
      ((if s then -1 else 1) * inject_Z (Z.pos m) * 2 ^ e)%Q
  | _ => 0%Q
  end.

(** The texts that the Google classifier takes for an authentication
    failure, and those that it tests before them. *)
Definition authText (errStr : gostring) : bool :=
  Contains errStr (str "authentication") || Contains errStr (str "unauthorized")
  || Contains errStr (str "API key") || Contains errStr (str "invalid api key").

Definition transportText (errStr : gostring) : bool :=
  Contains errStr (str "connection refused") || Contains errStr (str "no such host")
  || Contains errStr (str "network is unreachable")
  || Contains errStr (str "timeout")
  || Contains errStr (str "context deadline exceeded")
  || Contains errStr (str "deadline exceeded").

Definition sampleRequest : ChatRequest unit :=
  {| SystemPrompt := str "You are a helpful assistant.";
     Messages := [{| Role := str "user"; Content := str "Say hello in one sentence." |}];
     T := None |}.

(** A small factory: one registered constructor, which keeps the host
    it is given, and one instance in the cache. *)
Definition sampleConstructor : Factory.ProviderConstructor gostring :=
  fun cfg => match cfg !! str "host" with
             | Some (Factory.VString host) => inl host
             | _ => inr (OtherErr (str "no host"))
             end.

Definition sampleFactory : Factory.LLMFactory gostring :=
  {| Factory.registry := {| Factory.providers := {[ str "ollama" := sampleConstructor ]} |};
     Factory.config := Factory.emptyConfig;
     Factory.providerCache := {[ str "ollama" := str "http://localhost:11434" ]};
     Factory.modelCache := ∅ |}.

(** ** Package [simpleai]: the rest of [factory.go] and [provider.go] *)
Module FactoryOps.

Section Ops.

Variable Provider : Type.

(** [provider.ListModels()]: the list, or the error, that an instance
    answers with. *)
Variable listModels : Provider -> list Factory.Model + error.

(** [ProviderRegistry.Exists]. *)
Definition Exists (r : Factory.ProviderRegistry Provider) (name : gostring) : bool :=
  match Factory.providers r !! name with
  | Some _ => true
  | None => false
  end.

(** [SetDefaultProvider]: the error it returns and the factory
    afterwards. *)
Definition SetDefaultProvider (f : Factory.LLMFactory Provider)
    (providerName : gostring) : option error * Factory.LLMFactory Provider :=
  if negb (Exists (Factory.registry f) providerName) then
    (Some (LLMErr (NewLLMError ErrInvalidConfig
             (str "provider not registered: " ++ providerName)
             (str "set_default_provider") false 0 None)), f)
  else
    (None,
     {| Factory.registry := Factory.registry f;
        Factory.config :=
          {| Factory.DefaultProvider := providerName;
             Factory.Providers := Factory.Providers (Factory.config f);
             Factory.ModelPreferences := Factory.ModelPreferences (Factory.config f);
             Factory.FallbackProviders := Factory.FallbackProviders (Factory.config f) |};
        Factory.providerCache := Factory.providerCache f;
        Factory.modelCache := Factory.modelCache f |}).

Definition GetDefaultProviderName (f : Factory.LLMFactory Provider) : gostring :=
  Factory.DefaultProvider (Factory.config f).

Definition GetDefaultProvider (f : Factory.LLMFactory Provider)
  : Factory.Outcome Provider (Provider + error) :=
  let defaultProviderName := Factory.DefaultProvider (Factory.config f) in
  if negb (nonempty defaultProviderName) then
    {| Factory.result := inr (LLMErr (NewLLMError ErrInvalidConfig
                                (str "no default provider configured")
                                (str "get_default_provider") false 0 None));
       Factory.factory := f; Factory.constructed := [] |}
  else Factory.CreateProviderFromConfig Provider f defaultProviderName.

(** A call of [ListModels]: what it returns, the factory afterwards, the
    constructor invocations it made and the instances it asked for their
    models. *)
Record Listing := {
  listed : list Factory.Model + error;
  after : Factory.LLMFactory Provider;
  built : list (gostring * gmap gostring Factory.ConfigValue);
  asked : list Provider
}.

Definition ListModels (f : Factory.LLMFactory Provider) (providerName : gostring)
  : Listing :=
  match Factory.modelCache f !! providerName with
  | Some models =>
      {| listed := inl models; after := f; built := []; asked := [] |}
  | None =>
      let created := Factory.CreateProviderFromConfig Provider f providerName in
      match Factory.result created with
      | inr err =>
          {| listed := inr (WrapErr (str "failed to create provider for model listing") err);
             after := Factory.factory created;
             built := Factory.constructed created; asked := [] |}
      | inl provider =>
          match listModels provider with
          | inr err =>
              {| listed := inr (WrapErr (str "failed to list models for provider "
                                         ++ providerName) err);
                 after := Factory.factory created;
                 built := Factory.constructed created; asked := [provider] |}
          | inl models =>
              {| listed := inl models;
                 after :=
                   {| Factory.registry := Factory.registry (Factory.factory created);
                      Factory.config := Factory.config (Factory.factory created);
                      Factory.providerCache :=
                        Factory.providerCache (Factory.factory created);
                      Factory.modelCache :=
                        <[providerName := models]>
                          (Factory.modelCache (Factory.factory created)) |};
                 built := Factory.constructed created; asked := [provider] |}
          end
      end
  end.

End Ops.

Arguments listed {Provider}.
Arguments after {Provider}.
Arguments built {Provider}.
Arguments asked {Provider}.

End FactoryOps.

(** ** Package [simpleai]: [config.go] *)
Module ConfigFile.

(** The legacy [Config]. *)
Record Config := {
  OllamaHost : gostring;
  DefaultModel : gostring;
  DefaultPrompts : gmap gostring gostring
}.

Definition MigrateFromOldConfig (oldConfig : Config) : Factory.FactoryConfig :=
  {| Factory.DefaultProvider := str "ollama";
     Factory.Providers :=
       {[ str "ollama" :=
            {| Factory.Host := OllamaHost oldConfig;
               Factory.APIKey := [];
               Factory.DefaultModel := DefaultModel oldConfig;
               Factory.Timeout := 60;
               Factory.RetryAttempts := 3;
               Factory.RateLimit := 0;
               Factory.ExtraSettings := ∅ |} ]};
     Factory.ModelPreferences := {[ str "default" := DefaultModel oldConfig ]};
     Factory.FallbackProviders := [] |}.

(** The body of [for name, providerConfig := range config.Providers]. *)
Definition validateProvider (name : gostring) (providerConfig : Factory.ProviderConfig)
  : option error :=
  if negb (nonempty (Factory.DefaultModel providerConfig)) then
    Some (LLMErr (NewLLMError ErrInvalidConfig
            (str "provider " ++ name ++ str " must have a default model specified")
            (str "config_validation") false 0 None))
  else if Factory.Timeout providerConfig <=? 0 then
    Some (LLMErr (NewLLMError ErrInvalidConfig
            (str "provider " ++ name ++ str " must have a positive timeout value")
            (str "config_validation") false 0 None))
  else if Factory.RetryAttempts providerConfig <? 0 then
    Some (LLMErr (NewLLMError ErrInvalidConfig
            (str "provider " ++ name ++ str " cannot have negative retry attempts")
            (str "config_validation") false 0 None))
  else None.

Fixpoint validateProviders (visited : list (gostring * Factory.ProviderConfig))
  : option error :=
  match visited with
  | [] => None
  | (name, providerConfig) :: rest =>
      match validateProvider name providerConfig with
      | Some err => Some err
      | None => validateProviders rest
      end
  end.

(** [ValidateFactoryConfig]; [visited] is the order in which [range]
    goes through [config.Providers], which Go does not fix. *)
Definition ValidateFactoryConfig
    (visited : list (gostring * Factory.ProviderConfig))
    (config : Factory.FactoryConfig) : option error :=
  if negb (nonempty (Factory.DefaultProvider config)) then
    Some (LLMErr (NewLLMError ErrInvalidConfig
            (str "default provider must be specified")
            (str "config_validation") false 0 None))
  else if Nat.eqb (size (Factory.Providers config)) 0 then
    Some (LLMErr (NewLLMError ErrInvalidConfig
            (str "at least one provider must be configured")
            (str "config_validation") false 0 None))
  else
    match Factory.Providers config !! Factory.DefaultProvider config with
    | None =>
        Some (LLMErr (NewLLMError ErrInvalidConfig
                (str "default provider " ++ Factory.DefaultProvider config
                 ++ str " not found in provider configurations")
                (str "config_validation") false 0 None))
    | Some _ => validateProviders visited
    end.

End ConfigFile.

(** ** The provider constructors *)

(** The type assertions [config[key].(string)] and [config[key].(int)]
    with their [ok]. *)
Definition configString (v : option Factory.ConfigValue) : option gostring :=
  match v with
  | Some (Factory.VString s) => Some s
  | _ => None
  end.

Definition configInt (v : option Factory.ConfigValue) : option Z :=
  match v with
  | Some (Factory.VInt n) => Some n
  | _ => None
  end.

(** The settings that both [NewProvider] read in the same way. *)
Definition readDefaultModel (config : gmap gostring Factory.ConfigValue)
    (default : gostring) : gostring :=
  match configString (config !! str "default_model") with
  | Some m => if nonempty m then m else default
  | None => default
  end.

Definition readTimeout (config : gmap gostring Factory.ConfigValue) : Z :=
  match configInt (config !! str "timeout") with
  | Some t => if 0 <? t then t else 60
  | None => 60
  end.

Definition readRetryAttempts (config : gmap gostring Factory.ConfigValue) : Z :=
  match configInt (config !! str "retry_attempts") with
  | Some r => if 0 <=? r then r else 3
  | None => 3
  end.

Definition newRetryConfig (retryAttempts : Z) : RetryConfig :=
  {| MaxRetries := retryAttempts; BaseDelay := 2 * Second;
     MaxDelay := 30 * Second; BackoffFactor := 2%float |}.

(** Package [google]: the constructor and the message conversion. *)
Module GoogleProvider.

(** [genai.RoleUser] and [genai.RoleModel]. *)
Inductive ContentRole := RoleUser | RoleModel.

(** [genai.NewContentFromText(text, role)]. *)
Record GenaiContent := { contentText : gostring; contentRole : ContentRole }.

Definition isSystem (msg : Message) : bool := runes_eqb (Role msg) (str "system").

(** The first loop of [convertMessages]. *)
Fixpoint hasSystemInMessages (messages : list Message) : bool :=
  match messages with
  | [] => false
  | msg :: rest => if isSystem msg then true else hasSystemInMessages rest
  end.

(** The [switch msg.Role]. *)
Definition roleOf (msg : Message) : ContentRole :=
  if runes_eqb (Role msg) (str "user") then RoleUser
  else if runes_eqb (Role msg) (str "assistant") then RoleModel
  else if runes_eqb (Role msg) (str "system") then RoleUser
  else RoleUser.

(** The second loop, with [contents] built so far. *)
Fixpoint convertLoop (messages : list Message) (systemPrompt : gostring)
    (hasSystem : bool) (contents : list GenaiContent) : list GenaiContent :=
  match messages with
  | [] => contents
  | msg :: rest =>
      if isSystem msg && nonempty systemPrompt && negb hasSystem
      then convertLoop rest systemPrompt hasSystem contents
      else convertLoop rest systemPrompt hasSystem
             (contents ++ [{| contentText := Content msg; contentRole := roleOf msg |}])
  end.

Definition convertMessages (messages : list Message) (systemPrompt : gostring)
  : list GenaiContent :=
  convertLoop messages systemPrompt (hasSystemInMessages messages) [].

Section Provider.

(** The SDK client, and [genai.NewClient] for an API key: the client or
    the text of its error. *)
Variable Client : Type.
Variable newClient : gostring -> Client + gostring.

Record Provider := {
  client : Client;
  defaultModel : gostring;
  timeout : Z;
  retryConfig : RetryConfig
}.

Definition NewProvider (config : gmap gostring Factory.ConfigValue)
  : Provider + error :=
  let missingKey :=
    inr (LLMErr (NewLLMError ErrInvalidConfig
           (str "API key is required for Google provider")
           (str "provider_creation") false 0 None)) in
  match configString (config !! str "api_key") with
  | Some key =>
      if nonempty key then
        let apiKey := key in
        let defaultModel := readDefaultModel config (str "gemini-2.0-flash") in
        let timeout := readTimeout config in
        let retryAttempts := readRetryAttempts config in
        let retryConfig := newRetryConfig retryAttempts in
        match newClient apiKey with
        | inr errText =>
            inr (LLMErr (NewLLMError ErrConnectionFailed
                   (str "failed to create Google Gen AI client")
                   (str "provider_creation") false 0 (Some errText)))
        | inl client =>
            inl {| client := client; defaultModel := defaultModel;
                   timeout := timeout; retryConfig := retryConfig |}
        end
      else missingKey
  | None => missingKey
  end.

(** [Chat] is [ChatWithRetry] under the provider's own policy. *)
Definition Chat (Data : Type) (jsonUnmarshalOK : gostring -> bool)
    (call : Z -> Reply) (p : Provider) (request : ChatRequest Data) : Run Data :=
  Google.ChatWithRetry Data jsonUnmarshalOK call request (retryConfig p).

End Provider.

Arguments client {Client}.
Arguments defaultModel {Client}.
Arguments timeout {Client}.
Arguments retryConfig {Client}.

End GoogleProvider.

(** Package [ollama] of [providers]: the constructor, with the client of
    [ollama/client.go] that it wraps. *)
Module OllamaProvider.

Section Provider.

(** [url.URL]; [url.Parse]: the URL or the text of its error; and the
    literal [url.URL{Scheme: http, Host: localhost:11434}] of
    [NewClient]. *)
Variable URL : Type.
Variable urlParse : gostring -> URL + gostring.
Variable localURL : URL.

(** [api.NewClient(base, http.DefaultClient)]. *)
Record ApiClient := { base : URL }.

(** The [Client] of [ollama/client.go] and its [NewClient]. *)
Record Client := { ollamaClient : ApiClient; model : Factory.Model }.

Definition NewClient (model : Factory.Model) : Client :=
  {| ollamaClient := {| base := localURL |}; model := model |}.

(** The [Provider]; [directClient] is its field [ollamaClient]. *)
Record Provider := {
  client : Client;
  host : gostring;
  defaultModel : gostring;
  timeout : Z;
  retryConfig : RetryConfig;
  directClient : ApiClient
}.

Definition NewProvider (config : gmap gostring Factory.ConfigValue)
  : Provider + error :=
  let host :=
    match configString (config !! str "host") with
    | Some h => if nonempty h then h else str "http://localhost:11434"
    | None => str "http://localhost:11434"
    end in
  let defaultModel := readDefaultModel config (str "llama3.1:latest") in
  let timeout := readTimeout config in
  let retryAttempts := readRetryAttempts config in
  let retryConfig := newRetryConfig retryAttempts in
  match urlParse host with
  | inr errText =>
      inr (LLMErr (NewLLMError ErrInvalidConfig (str "invalid host URL: " ++ host)
             (str "provider_creation") false 0 (Some errText)))
  | inl hostURL =>
      let ollamaClient := {| base := hostURL |} in
      let model := {| Factory.Name := defaultModel |} in
      let wrappedClient := NewClient model in
      inl {| client := wrappedClient; host := host; defaultModel := defaultModel;
             timeout := timeout; retryConfig := retryConfig;
             directClient := ollamaClient |}
  end.

(** [UpdateRetryConfig]; [None] is a nil pointer. *)
Definition UpdateRetryConfig (p : Provider) (config : option RetryConfig) : Provider :=
  match config with
  | Some c =>
      {| client := client p; host := host p; defaultModel := defaultModel p;
         timeout := timeout p; retryConfig := c; directClient := directClient p |}
  | None => p
  end.

(** [Chat]: the wrapped client's [ChatWithRetry] under the provider's
    policy; [call] is the network as seen from the address of the
    client that is used. *)
Definition Chat (Data : Type) (jsonUnmarshalOK : gostring -> bool)
    (call : URL -> Z -> Reply) (p : Provider) (request : ChatRequest Data)
  : Run Data :=
  Ollama.ChatWithRetry Data jsonUnmarshalOK (call (base (ollamaClient (client p))))
    request (retryConfig p).

End Provider.

Arguments base {URL}.
Arguments ollamaClient {URL}.
Arguments model {URL}.
Arguments client {URL}.
Arguments host {URL}.
Arguments defaultModel {URL}.
Arguments timeout {URL}.
Arguments retryConfig {URL}.
Arguments directClient {URL}.

End OllamaProvider.

(** ** More vocabulary: what one attempt ends with *)

(** The error of a JSON extraction that found nothing, and of a decoding
    that failed, as both loops build them. *)
Definition noJSONError (attempt : Z) (finalResponse : gostring) : LLMError :=
  NewLLMError ErrJSONParseFailed (str "no valid JSON found in response")
    (str "chat") true attempt
    (Some (str "extractJSON failed - response preview: " ++ preview finalResponse)).

Definition unmarshalError (attempt : Z) (errText jsonStr : gostring) : LLMError :=
  NewLLMError ErrJSONParseFailed (str "failed to parse JSON response")
    (str "chat") true attempt
    (Some (str "unmarshal error: " ++ errText
           ++ str " - extracted JSON preview: " ++ preview jsonStr)).

(** The structured-data part of an attempt, the same in both loops: the
    response when no target shape is asked for or the extracted JSON
    decodes, the error otherwise. *)
Definition structuredOutcome {Data : Type} (jsonUnmarshalOK : gostring -> bool)
    (request : ChatRequest Data) (attempt : Z) (finalResponse : gostring)
  : LLMError + ChatResponse Data :=
  match T request with
  | Some targetType =>
      let jsonStr := extractJSON jsonUnmarshalOK finalResponse in
      if negb (nonempty jsonStr) then inl (noJSONError attempt finalResponse)
      else
        match targetType jsonStr with
        | inr errText => inl (unmarshalError attempt errText jsonStr)
        | inl structuredData =>
            inr {| resp_Message := finalResponse; resp_Data := Some structuredData |}
        end
  | None => inr {| resp_Message := finalResponse; resp_Data := None |}
  end.

(** What the body of the Ollama loop makes of attempt [attempt]: the
    error it stores in [lastErr], or the response it returns. *)
Definition ollamaAttempt {Data : Type} (jsonUnmarshalOK : gostring -> bool)
    (call : Z -> Reply) (request : ChatRequest Data) (attempt : Z)
  : LLMError + ChatResponse Data :=
  match call attempt with
  | Failure errStr => inl (Ollama.classifyError errStr attempt (str "chat"))
  | Success finalResponse =>
      structuredOutcome jsonUnmarshalOK request attempt finalResponse
  end.

(** The same for the Google loop, with its test for an empty text. *)
Definition googleAttempt {Data : Type} (jsonUnmarshalOK : gostring -> bool)
    (call : Z -> Reply) (request : ChatRequest Data) (attempt : Z)
  : LLMError + ChatResponse Data :=
  match call attempt with
  | Failure errStr => inl (Google.classifyError errStr attempt (str "chat"))
  | Success finalResponse =>
      if negb (nonempty finalResponse) then
        inl (NewLLMError ErrInvalidResponse (str "empty response from Google API")
               (str "chat") true attempt None)
      else structuredOutcome jsonUnmarshalOK request attempt finalResponse
  end.

(** What a run returns when its last attempt ends with [o]. *)
Definition resultOf {Data : Type} (o : LLMError + ChatResponse Data)
  : ChatResponse Data * option error :=
  match o with
  | inl llmErr => (emptyResponse, Some (LLMErr llmErr))
  | inr response => (response, None)
  end.

(** The run made [n] attempts from [attempt] on: each of them but the
    last ended with a retryable error while budget was left, and the
    run returns what the last one ended with. *)
Definition RunOf {Data : Type} (retryConfig : RetryConfig)
    (outcome : Z -> LLMError + ChatResponse Data) (attempt : Z) (n : nat)
    (r : Run Data) : Prop :=
  run_events r = eventsOfAttempts retryConfig attempt n
  /\ (forall j, attempt <= j < attempt + Z.of_nat n - 1 ->
        j < MaxRetries retryConfig
        /\ exists llmErr, outcome j = inl llmErr /\ Retryable llmErr = true)
  /\ (run_response r, run_error r) = resultOf (outcome (attempt + Z.of_nat n - 1)).

(** A run that ends on an error returns the zero response, and the error
    is an [LLMError] of the operation [chat] whose [RetryCount] is the
    number of the last attempt made. *)
Definition FailsCleanly {Data : Type} (retryConfig : RetryConfig) (r : Run Data)
  : Prop :=
  forall e, run_error r = Some e ->
    run_response r = emptyResponse
    /\ exists llmErr, e = LLMErr llmErr
         /\ Operation llmErr = str "chat"
         /\ 0 <= RetryCount llmErr <= MaxRetries retryConfig
         /\ run_events r
            = eventsOfAttempts retryConfig 0 (S (Z.to_nat (RetryCount llmErr))).

(** A reply plan: the first [k] calls fail with [errStr], the next one
    answers [text]. *)
Definition failThenAnswer (k : Z) (errStr text : gostring) : Z -> Reply :=
  fun attempt => if attempt <? k then Failure errStr else Success text.

(** A target shape that accepts every JSON text. *)
Definition anyTarget : gostring -> unit + gostring :=
  fun jsonStr => inl tt.

(** The retryability that both classifiers attach to an error type. *)
Definition typeRetryable (t : ErrType) : bool :=
  match t with
  | ErrModelNotAvailable | ErrInvalidConfig => false
  | _ => true
  end.

(** The markers that only the Google classifier knows. *)
Definition googleOnlyText (errStr : gostring) : bool :=
  Contains errStr (str "deadline exceeded")
  || authText errStr
  || Contains errStr (str "rate limit") || Contains errStr (str "quota exceeded")
  || Contains errStr (str "resource exhausted")
  || Contains errStr (str "invalid model").

(** The escape that the repair pass writes for a control character. *)
Definition escapeOf (char : rune) : option gostring :=
  if char =? NEWLINE then Some (str "\n")
  else if char =? CARRIAGE then Some (str "\r")
  else if char =? TAB then Some (str "\t")
  else None.

(** [t] is [s] with some line feeds, carriage returns and tabs replaced
    by their escapes, and nothing else changed. *)
Inductive Repaired : gostring -> gostring -> Prop :=
| Repaired_nil : Repaired [] []
| Repaired_keep (char : rune) (s t : gostring) :
    Repaired s t -> Repaired (char :: s) (char :: t)
| Repaired_escape (char : rune) (escape s t : gostring) :
    escapeOf char = Some escape -> Repaired s t ->
    Repaired (char :: s) (escape ++ t).

Definition isControl (char : rune) : bool :=
  (char =? NEWLINE) || (char =? CARRIAGE) || (char =? TAB).

(** No span is open, or the recorded start is the position of an
    [openChar] in what has been read. *)
Definition startOK (openChar : rune) (done : gostring) (st : BoundState) : Prop :=
  b_start st = -1
  \/ exists d1 d2, done = d1 ++ openChar :: d2 /\ b_start st = len d1.

(** A legacy configuration, its migration, a factory that has loaded
    it, and a provider that answers with one model named after
    itself. *)
Definition sampleOldConfig : ConfigFile.Config :=
  {| ConfigFile.OllamaHost := str "http://localhost:11434";
     ConfigFile.DefaultModel := str "llama3.1:latest";
     ConfigFile.DefaultPrompts := ∅ |}.

Definition sampleConfig : Factory.FactoryConfig :=
  ConfigFile.MigrateFromOldConfig sampleOldConfig.

Definition configuredFactory : Factory.LLMFactory gostring :=
  snd (Factory.LoadConfig gostring sampleFactory sampleConfig).

Definition sampleListModels (provider : gostring) : list Factory.Model + error :=
  inl [ {| Factory.Name := provider |} ].

(** What [ValidateFactoryConfig] asks of one provider configuration. *)
Definition providerOK (pc : Factory.ProviderConfig) : Prop :=
  Factory.DefaultModel pc <> [] /\ 0 < Factory.Timeout pc
  /\ 0 <= Factory.RetryAttempts pc.

(** The role that a message is sent under, in the words of the
    [switch]: the model for the assistant, the user for all others. *)
Definition sentAs (msg : Message) : GoogleProvider.GenaiContent :=
  {| GoogleProvider.contentText := Content msg;
     GoogleProvider.contentRole :=
       if runes_eqb (Role msg) (str "assistant")
       then GoogleProvider.RoleModel else GoogleProvider.RoleUser |}.

(** A [genai.NewClient] and a [url.Parse] that accept everything. *)
Definition anyClient (apiKey : gostring) : gostring + gostring := inl apiKey.
Definition anyURL (rawURL : gostring) : gostring + gostring := inl rawURL.

Definition sampleProviderConfig : Factory.ProviderConfig :=
  {| Factory.Host := str "http://10.0.0.5:11434"; Factory.APIKey := str "k";
     Factory.DefaultModel := []; Factory.Timeout := 0;
     Factory.RetryAttempts := 5; Factory.RateLimit := 0;
     Factory.ExtraSettings := {[ str "retry_attempts" := str "7" ]} |}.

(** The Ollama provider that [anyURL] and [sampleProviderConfig] give. *)
Definition sampleOllamaProvider : OllamaProvider.Provider gostring :=
  {| OllamaProvider.client :=
       OllamaProvider.NewClient gostring (str "localhost:11434")
         {| Factory.Name := str "llama3.1:latest" |};
     OllamaProvider.host := str "http://10.0.0.5:11434";
     OllamaProvider.defaultModel := str "llama3.1:latest";
     OllamaProvider.timeout := 60;
     OllamaProvider.retryConfig := newRetryConfig 3;
     OllamaProvider.directClient :=
       {| OllamaProvider.base := str "http://10.0.0.5:11434" |} |}.

(** * Properties *)

(** ** Go strings: prefixes, occurrences, substrings *)

Lemma HasPrefix_app (s prefix : gostring) :
  HasPrefix s prefix = true <-> exists rest, s = prefix ++ rest.
Proof.
  revert s. induction prefix as [|p prefix IH]; intros s; simpl.
  - split; [intros _; exists s; reflexivity | reflexivity].
  - destruct s as [|c s]; simpl.
    + split; [discriminate | intros [rest H]; discriminate].
    + rewrite andb_true_iff, Z.eqb_eq, IH. split.
      * intros [-> [rest ->]]. exists rest. reflexivity.
      * intros [rest H]. injection H as -> ->. split; [reflexivity | eauto].
Qed.

Lemma Index_from_found (s substr : gostring) (i : Z) :
  Index_from s substr i <> -1 -> 0 <= i ->
  exists pre post, s = pre ++ substr ++ post
                   /\ Index_from s substr i = i + len pre.
Proof.
  revert i. induction s as [|c s IH]; intros i; simpl.
  - destruct (HasPrefix [] substr) eqn:Hp; [|congruence].
    intros _ _. apply HasPrefix_app in Hp as [rest Hp].
    exists [], rest. split; [exact Hp | unfold len; simpl; lia].
  - destruct (HasPrefix (c :: s) substr) eqn:Hp.
    + intros _ _. apply HasPrefix_app in Hp as [rest Hp].
      exists [], rest. split; [exact Hp | unfold len; simpl; lia].
    + intros Hne Hi. destruct (IH (i + 1) Hne) as (pre & post & -> & Hidx); [lia|].
      exists (c :: pre), post. split; [reflexivity|].
      rewrite Hidx. unfold len. simpl List.length. lia.
Qed.

Lemma Index_from_range (s substr : gostring) (i : Z) :
  0 <= i -> Index_from s substr i = -1 \/ i <= Index_from s substr i.
Proof.
  revert i. induction s as [|c s IH]; intros i Hi; simpl.
  - destruct (HasPrefix [] substr); lia.
  - destruct (HasPrefix (c :: s) substr); [lia|].
    destruct (IH (i + 1)); lia.
Qed.

Lemma Index_from_none (s substr : gostring) (i : Z) :
  Index_from s substr i = -1 -> 0 <= i -> ~ Substring substr s.
Proof.
  revert i. induction s as [|c s IH]; intros i; simpl.
  - destruct (HasPrefix [] substr) eqn:Hp; [lia|].
    intros _ _ (pre & post & H).
    destruct pre; [|discriminate].
    assert (HasPrefix [] substr = true) by (apply HasPrefix_app; eauto).
    congruence.
  - destruct (HasPrefix (c :: s) substr) eqn:Hp; [lia|].
    intros Hidx Hi (pre & post & H).
    destruct pre as [|x pre].
    + assert (HasPrefix (c :: s) substr = true) by (apply HasPrefix_app; eauto).
      congruence.
    + injection H as _ H. apply (IH (i + 1) Hidx); [lia|]. exists pre, post. exact H.
Qed.

(** [strings.Contains] decides [Substring]. *)
Lemma Contains_Substring (s substr : gostring) :
  Contains s substr = true <-> Substring substr s.
Proof.
  unfold Contains, Index. split.
  - intros H. apply Z.leb_le in H.
    destruct (Index_from_found s substr 0) as (pre & post & Hs & _); [lia | lia |].
    exists pre, post. exact Hs.
  - intros H. apply Z.leb_le.
    destruct (Index_from_range s substr 0) as [Hn | Hr]; [lia | | exact Hr].
    exfalso. exact (Index_from_none _ _ _ Hn (Z.le_refl 0) H).
Qed.

Lemma Substring_refl (s : gostring) : Substring s s.
Proof. exists [], []. rewrite app_nil_r. reflexivity. Qed.

Lemma Substring_trans (a b c : gostring) :
  Substring a b -> Substring b c -> Substring a c.
Proof.
  intros (p1 & q1 & ->) (p2 & q2 & ->).
  exists (p2 ++ p1), (q1 ++ q2). rewrite <- !app_assoc. reflexivity.
Qed.

Lemma Substring_nil (s : gostring) : Substring [] s.
Proof. exists [], s. reflexivity. Qed.

Lemma Substring_skipn (n : nat) (s : gostring) : Substring (skipn n s) s.
Proof.
  exists (firstn n s), []. rewrite app_nil_r. symmetry. apply firstn_skipn.
Qed.

Lemma Substring_firstn (n : nat) (s : gostring) : Substring (firstn n s) s.
Proof. exists [], (skipn n s). symmetry. apply firstn_skipn. Qed.

Lemma Substring_slice (s : gostring) (lo hi : Z) : Substring (slice s lo hi) s.
Proof.
  unfold slice. eapply Substring_trans; [apply Substring_firstn | apply Substring_skipn].
Qed.

Lemma Substring_TrimLeftSpace (s : gostring) : Substring (TrimLeftSpace s) s.
Proof.
  induction s as [|c s IH]; simpl; [apply Substring_refl|].
  destruct (IsSpace c); [|apply Substring_refl].
  eapply Substring_trans; [exact IH|]. exists [c], []. rewrite app_nil_r. reflexivity.
Qed.

Lemma Substring_rev (a b : gostring) : Substring a b -> Substring (rev a) (rev b).
Proof.
  intros (p & q & ->). exists (rev q), (rev p).
  rewrite !rev_app_distr, <- app_assoc. reflexivity.
Qed.

Lemma Substring_TrimSpace (s : gostring) : Substring (TrimSpace s) s.
Proof.
  unfold TrimSpace.
  eapply Substring_trans; [|apply Substring_TrimLeftSpace].
  rewrite <- (rev_involutive (TrimLeftSpace s)) at 2.
  apply Substring_rev, Substring_TrimLeftSpace.
Qed.

(** ** The repair pass *)

Lemma fix_loop_result (chars result : gostring) (inString escaped : bool) :
  fix_loop chars result inString escaped
  = (result ++ fst (fix_loop chars [] inString escaped),
     snd (fix_loop chars [] inString escaped)).
Proof.
  revert result inString escaped.
  induction chars as [|char rest IH]; intros result inString escaped; simpl.
  - rewrite app_nil_r. reflexivity.
  - destruct (fix_iter inString escaped char) as [written [i' e']].
    rewrite (IH (result ++ written)), (IH written). simpl.
    rewrite app_assoc. reflexivity.
Qed.

Lemma fix_loop_cons (char : rune) (rest : gostring) (inString escaped : bool) :
  fix_loop (char :: rest) [] inString escaped
  = let '(written, (i', e')) := fix_iter inString escaped char in
    (written ++ fst (fix_loop rest [] i' e'), snd (fix_loop rest [] i' e')).
Proof.
  simpl. destruct (fix_iter inString escaped char) as [written [i' e']].
  apply fix_loop_result.
Qed.

Lemma fix_loop_app (a b : gostring) (inString escaped : bool) :
  fix_loop (a ++ b) [] inString escaped
  = let '(outa, (ia, ea)) := fix_loop a [] inString escaped in
    (outa ++ fst (fix_loop b [] ia ea), snd (fix_loop b [] ia ea)).
Proof.
  revert inString escaped.
  induction a as [|char a IH]; intros inString escaped.
  - simpl. destruct (fix_loop b [] inString escaped). reflexivity.
  - rewrite <- app_comm_cons, !fix_loop_cons.
    destruct (fix_iter inString escaped char) as [written [i' e']].
    rewrite IH. destruct (fix_loop a [] i' e') as [outa [ia ea]]. simpl.
    rewrite app_assoc. reflexivity.
Qed.

(** Scanning again what one iteration has written, from the state in
    which it was written, writes it unchanged and ends in the state the
    iteration ended in. *)
Lemma fix_iter_rescan (inString escaped : bool) (char : rune) :
  fix_loop (fst (fix_iter inString escaped char)) [] inString escaped
  = fix_iter inString escaped char.
Proof.
  unfold fix_iter.
  destruct (char =? BACKSLASH) eqn:Hb, (char =? QUOTE) eqn:Hq,
    (char =? NEWLINE) eqn:Hn, (char =? CARRIAGE) eqn:Hc, (char =? TAB) eqn:Ht,
    inString, escaped; simpl; unfold fix_iter;
  rewrite ?Hb, ?Hq, ?Hn, ?Hc, ?Ht; reflexivity.
Qed.

Lemma fix_loop_idempotent (chars : gostring) (inString escaped : bool) :
  fix_loop (fst (fix_loop chars [] inString escaped)) [] inString escaped
  = fix_loop chars [] inString escaped.
Proof.
  revert inString escaped.
  induction chars as [|char rest IH]; intros inString escaped; [reflexivity|].
  rewrite fix_loop_cons.
  pose proof (fix_iter_rescan inString escaped char) as Hr.
  destruct (fix_iter inString escaped char) as [written [i' e']].
  simpl fst in *. rewrite fix_loop_app, Hr, IH. reflexivity.
Qed.

(** C4. The repair pass is idempotent: repairing a repaired text leaves
    it unchanged, for every input; an escape sequence written by the
    first pass is read back as an escape and not escaped again. *)
Theorem repair_idempotent (s : gostring) :
  repairCommonJSONIssues (repairCommonJSONIssues s) = repairCommonJSONIssues s.
Proof.
  unfold repairCommonJSONIssues, fixUnescapedNewlines.
  rewrite fix_loop_idempotent. reflexivity.
Qed.

(** ** The two escape-aware scanners *)

Section Scanners.

Variable jsonUnmarshalOK : gostring -> bool.

(** The boundary loop follows the rules of the specification. *)
Lemma bound_iter_flags (response : gostring) (openChar closeChar : rune)
    (i : Z) (char : rune) (st st' : BoundState) :
  bound_iter jsonUnmarshalOK response openChar closeChar i char st = Next st' ->
  (b_inString st', b_escaped st')
  = spec_scan_step (b_inString st, b_escaped st) char.
Proof.
  unfold bound_iter, spec_scan_step.
  destruct ((char =? BACKSLASH) && negb (b_escaped st)).
  - intros [= <-]. reflexivity.
  - destruct ((char =? QUOTE) && negb (b_escaped st)); simpl;
      repeat match goal with
             | |- context [if ?c then _ else _] => destruct c
             end;
      intros [= <-]; reflexivity.
Qed.

Lemma bound_loop_flags (response : gostring) (openChar closeChar : rune)
    (chars : gostring) (i : Z) (st st' : BoundState) :
  bound_loop jsonUnmarshalOK response openChar closeChar chars i st = Next st' ->
  (b_inString st', b_escaped st')
  = fold_left spec_scan_step chars (b_inString st, b_escaped st).
Proof.
  revert i st. induction chars as [|char rest IH]; intros i st; simpl.
  - intros [= <-]. reflexivity.
  - destruct (bound_iter _ _ _ _ _ _ _) as [st1|] eqn:Hit; [|discriminate].
    intros H. rewrite (IH _ _ H). f_equal. apply (bound_iter_flags _ _ _ _ _ _ _ Hit).
Qed.

(** At every position that the boundary loop reaches, its flags are
    those of the specification's scanner. *)
Lemma boundScanState_spec (openChar closeChar : rune) (s : gostring) (k : nat)
    (flags : bool * bool) :
  boundScanState jsonUnmarshalOK openChar closeChar s k = Some flags ->
  flags = spec_scan (firstn k s).
Proof.
  unfold boundScanState, spec_scan.
  destruct (bound_loop _ _ _ _ _ _ _) as [st|] eqn:Hl; [|discriminate].
  intros [= <-]. apply (bound_loop_flags _ _ _ _ _ _ _ Hl).
Qed.

End Scanners.

(** The repair loop follows the same rules except on a backslash that is
    itself escaped, after which its [escaped] flag stays set. *)
Lemma fix_iter_flags (inString escaped : bool) (char : rune) :
  snd (fix_iter inString escaped char)
  = if (char =? BACKSLASH) && escaped then (inString, true)
    else spec_scan_step (inString, escaped) char.
Proof.
  unfold fix_iter, spec_scan_step.
  destruct (char =? BACKSLASH) eqn:Hb, (char =? QUOTE) eqn:Hq,
    (char =? NEWLINE) eqn:Hn, (char =? CARRIAGE) eqn:Hc, (char =? TAB) eqn:Ht,
    inString, escaped; try reflexivity;
  apply Z.eqb_eq in Hb; apply Z.eqb_eq in Hq; subst; discriminate.
Qed.

(** C3. On the three characters backslash, backslash, quote the repair
    loop and the boundary loop reach different flags: after the second
    character the repair loop still has [escaped] set where the boundary
    loop has cleared it, and after the third the boundary loop is inside
    a string where the repair loop is not. *)
Theorem scanners_differ_on_escaped_backslash (jsonUnmarshalOK : gostring -> bool) :
  let s := [BACKSLASH; BACKSLASH; QUOTE] in
  fixScanState s 2 = (false, true)
  /\ boundScanState jsonUnmarshalOK LBRACE RBRACE s 2 = Some (false, false)
  /\ fixScanState s 3 = (false, false)
  /\ boundScanState jsonUnmarshalOK LBRACE RBRACE s 3 = Some (true, false).
Proof. cbv zeta. repeat split; reflexivity. Qed.

Lemma fix_loop_flags_spec (s : gostring) (inString escaped : bool) :
  noDoubleBackslash s = true ->
  (escaped = true -> forall c rest, s = c :: rest -> c <> BACKSLASH) ->
  snd (fix_loop s [] inString escaped)
  = fold_left spec_scan_step s (inString, escaped).
Proof.
  revert inString escaped.
  induction s as [|c rest IH]; intros inString escaped Hnd Hesc; [reflexivity|].
  rewrite fix_loop_cons.
  pose proof (fix_iter_flags inString escaped c) as Hf.
  destruct (fix_iter inString escaped c) as [written [i' e']].
  cbn [snd fst fold_left] in *.
  assert (Hst : (i', e') = spec_scan_step (inString, escaped) c).
  { rewrite Hf. destruct escaped; [|rewrite andb_false_r; reflexivity].
    destruct (c =? BACKSLASH) eqn:Hc; [|reflexivity].
    apply Z.eqb_eq in Hc. exfalso. exact (Hesc eq_refl c rest eq_refl Hc). }
  rewrite <- Hst. apply IH.
  - destruct rest as [|d rest']; [reflexivity|].
    simpl in Hnd. apply andb_true_iff in Hnd as [_ Hnd]. exact Hnd.
  - intros He' d rest' -> Hd. subst d.
    simpl in Hnd. apply andb_true_iff in Hnd as [Hnd _].
    unfold spec_scan_step in Hst.
    destruct (c =? BACKSLASH) eqn:Hc; [discriminate|].
    simpl in Hst. destruct ((c =? QUOTE) && negb escaped); congruence.
Qed.

(** Where no backslash directly follows a backslash, the repair loop has
    the flags of the specification's scanner at every position, and so
    the flags of the boundary loop. *)
Lemma fixScanState_spec (s : gostring) (k : nat) :
  noDoubleBackslash s = true -> fixScanState s k = spec_scan (firstn k s).
Proof.
  intros Hnd. unfold fixScanState, spec_scan. apply fix_loop_flags_spec.
  - clear -Hnd. revert k. induction s as [|c rest IH]; intros k.
    + destruct k; reflexivity.
    + destruct k as [|k]; [reflexivity|].
      destruct rest as [|d rest']; [destruct k; reflexivity|].
      simpl in Hnd. apply andb_true_iff in Hnd as [Hcd Hnd].
      specialize (IH Hnd k). destruct k as [|k]; [reflexivity|].
      simpl firstn in *. simpl. rewrite Hcd. exact IH.
  - discriminate.
Qed.

(** C8. In the repair loop the escaped mark outlives the next character
    when that character is a backslash: read in the state [escaped], a
    backslash leaves [escaped] set, where the rule clears it.  On
    backslash, backslash, quote the mark set by the first character is
    still set after the second, and the quote in third position does not
    toggle the in-string flag; a line feed that follows an escaped
    backslash inside a string is therefore written back unrepaired. *)
Theorem repair_scanner_escaped_outlives_backslash :
  snd (fix_iter false true BACKSLASH) = (false, true)
  /\ spec_scan_step (false, true) BACKSLASH = (false, false)
  /\ map (fixScanState [BACKSLASH; BACKSLASH; QUOTE]) [1; 2; 3]%nat
     = [(false, true); (false, true); (false, false)]
  /\ map (fun k => spec_scan (firstn k [BACKSLASH; BACKSLASH; QUOTE])) [1; 2; 3]%nat
     = [(false, true); (false, false); (true, false)]
  /\ fixUnescapedNewlines (jstr "{'a':'\\" ++ [NEWLINE] ++ jstr "'}")
     = jstr "{'a':'\\" ++ [NEWLINE] ++ jstr "'}".
Proof. repeat split; reflexivity. Qed.

(** ** The extraction pipeline *)

Section Pipeline.

Variable jsonUnmarshalOK : gostring -> bool.

Local Abbreviation isValid := (isValidJSON jsonUnmarshalOK).

Lemma bound_iter_Return (response : gostring) (openChar closeChar : rune)
    (i : Z) (char : rune) (st : BoundState) (candidate : gostring) :
  bound_iter jsonUnmarshalOK response openChar closeChar i char st
  = Return candidate ->
  isValid candidate = true /\ Substring candidate response.
Proof.
  unfold bound_iter.
  repeat match goal with
         | |- context [if ?c then _ else _] => destruct c eqn:?
         end; try discriminate.
  intros [= <-]. split; [assumption | apply Substring_slice].
Qed.

Lemma bound_loop_Return (response : gostring) (openChar closeChar : rune)
    (chars : gostring) (i : Z) (st : BoundState) (candidate : gostring) :
  bound_loop jsonUnmarshalOK response openChar closeChar chars i st
  = Return candidate ->
  isValid candidate = true /\ Substring candidate response.
Proof.
  revert i st. induction chars as [|char rest IH]; intros i st; simpl.
  - discriminate.
  - destruct (bound_iter _ _ _ _ _ _ _) as [st1|c1] eqn:Hit.
    + apply IH.
    + intros [= <-]. exact (bound_iter_Return _ _ _ _ _ _ _ Hit).
Qed.

Lemma extractJSONBoundaries_sound (response : gostring) (openChar closeChar : rune) :
  nonempty (extractJSONBoundaries jsonUnmarshalOK response openChar closeChar) = true ->
  isValid (extractJSONBoundaries jsonUnmarshalOK response openChar closeChar) = true
  /\ Substring (extractJSONBoundaries jsonUnmarshalOK response openChar closeChar)
       response.
Proof.
  unfold extractJSONBoundaries.
  destruct (bound_loop _ _ _ _ _ _ _) as [st|c] eqn:Hl; [discriminate|].
  intros _. exact (bound_loop_Return _ _ _ _ _ _ _ Hl).
Qed.

Lemma extractFromMarkdown_sound (response marker : gostring) :
  nonempty (extractFromMarkdown jsonUnmarshalOK response marker) = true ->
  isValid (extractFromMarkdown jsonUnmarshalOK response marker) = true
  /\ Substring (extractFromMarkdown jsonUnmarshalOK response marker) response.
Proof.
  unfold extractFromMarkdown.
  destruct (Index response marker =? -1); [discriminate|].
  destruct (Index _ MD_FENCE =? -1); [discriminate|].
  destruct (isValid _) eqn:Hv; [|discriminate].
  intros _. split; [exact Hv|].
  eapply Substring_trans; [apply Substring_TrimSpace|].
  eapply Substring_trans; [apply Substring_firstn | apply Substring_skipn].
Qed.

Lemma Substring_removePrefix (ps : list gostring) (s : gostring) :
  Substring (removePrefix ps s) s.
Proof.
  induction ps as [|p ps IH]; simpl; [apply Substring_refl|].
  destruct (HasPrefix s p); [|exact IH].
  eapply Substring_trans; [apply Substring_TrimSpace | apply Substring_skipn].
Qed.

Lemma Substring_removeSuffix (ss : list gostring) (s : gostring) :
  Substring (removeSuffix ss s) s.
Proof.
  induction ss as [|x ss IH]; simpl; [apply Substring_refl|].
  destruct (_ && _); [|exact IH].
  eapply Substring_trans; [apply Substring_TrimSpace | apply Substring_firstn].
Qed.

Lemma extractWithAggressiveCleanup_sound (response : gostring) :
  nonempty (extractWithAggressiveCleanup jsonUnmarshalOK response) = true ->
  isValid (extractWithAggressiveCleanup jsonUnmarshalOK response) = true
  /\ Substring (extractWithAggressiveCleanup jsonUnmarshalOK response) response.
Proof.
  unfold extractWithAggressiveCleanup.
  set (cleaned := removeSuffix suffixes (removePrefix prefixes response)).
  assert (Hc : Substring cleaned response).
  { eapply Substring_trans; [apply Substring_removeSuffix | apply Substring_removePrefix]. }
  destruct (isValid cleaned) eqn:Hv.
  - intros _. split; assumption.
  - intros Hne. destruct (extractJSONBoundaries_sound _ _ _ Hne) as [Hv' Hs].
    split; [exact Hv' | exact (Substring_trans _ _ _ Hs Hc)].
Qed.

(** Every return of the pipeline, strategy by strategy. *)
Lemma extractJSON_cases (response : gostring) :
  extractJSON jsonUnmarshalOK response <> [] ->
  isValid (extractJSON jsonUnmarshalOK response) = true
  /\ (Substring (extractJSON jsonUnmarshalOK response) response
      \/ (isValid (TrimSpace response) = false
          /\ extractJSON jsonUnmarshalOK response
             = repairCommonJSONIssues (TrimSpace response))).
Proof.
  unfold extractJSON.
  destruct (isValid (TrimSpace response)) eqn:H1.
  { intros _. split; [exact H1 | left; apply Substring_TrimSpace]. }
  destruct (isValid (repairCommonJSONIssues (TrimSpace response))) eqn:H2.
  { intros _. split; [exact H2 | right; split; reflexivity]. }
  cbv zeta.
  destruct (nonempty (if Contains response MD_JSON then _ else _)) eqn:H3.
  { intros _. destruct (Contains response MD_JSON); [|discriminate].
    destruct (extractFromMarkdown_sound _ _ H3). split; [|left]; assumption. }
  destruct (nonempty (if Contains response MD_FENCE then _ else _)) eqn:H4.
  { intros _. destruct (Contains response MD_FENCE); [|discriminate].
    destruct (extractFromMarkdown_sound _ _ H4). split; [|left]; assumption. }
  destruct (nonempty (extractWithBraceCounting _ _)) eqn:H5.
  { intros _. destruct (extractJSONBoundaries_sound _ _ _ H5).
    split; [|left]; assumption. }
  destruct (nonempty (extractWithAggressiveCleanup _ _)) eqn:H6.
  { intros _. destruct (extractWithAggressiveCleanup_sound _ H6).
    split; [|left]; assumption. }
  congruence.
Qed.

End Pipeline.

(** C5. Whatever [json.Unmarshal] accepts, a non-empty candidate returned
    by [extractJSON] passes [isValidJSON]: no strategy returns a text
    that it has not validated. *)
Theorem extractJSON_validated (jsonUnmarshalOK : gostring -> bool) (s : gostring) :
  extractJSON jsonUnmarshalOK s <> [] ->
  isValidJSON jsonUnmarshalOK (extractJSON jsonUnmarshalOK s) = true.
Proof. intros H. exact (proj1 (extractJSON_cases _ _ H)). Qed.

Lemma extractJSON_validated_witness :
  extractJSON JSON.valid (str "Here's the JSON: " ++ jstr "{'x': [1,2,{'y':3}]} Hope that helps!") <> []
  /\ isValidJSON JSON.valid
       (extractJSON JSON.valid
          (str "Here's the JSON: " ++ jstr "{'x': [1,2,{'y':3}]} Hope that helps!"))
     = true.
Proof.
  split; [vm_compute; discriminate|].
  apply (extractJSON_validated JSON.valid). vm_compute. discriminate.
Defined.

(** C7, as the code has it. A non-empty candidate returned by
    [extractJSON] is a contiguous substring of the raw response, or it is
    the output of the repair pass on the trimmed response (strategy 2,
    taken only when the trimmed response itself does not validate). *)
Theorem extractJSON_substring_or_repaired
    (jsonUnmarshalOK : gostring -> bool) (s : gostring) :
  extractJSON jsonUnmarshalOK s <> [] ->
  Substring (extractJSON jsonUnmarshalOK s) s
  \/ (isValidJSON jsonUnmarshalOK (TrimSpace s) = false
      /\ extractJSON jsonUnmarshalOK s = repairCommonJSONIssues (TrimSpace s)).
Proof. intros H. exact (proj2 (extractJSON_cases _ _ H)). Qed.

Lemma extractJSON_substring_or_repaired_witness :
  extractJSON JSON.valid (jstr "{'a':'x" ++ [NEWLINE] ++ jstr "y'} ") <> []
  /\ (Substring (extractJSON JSON.valid (jstr "{'a':'x" ++ [NEWLINE] ++ jstr "y'} "))
        (jstr "{'a':'x" ++ [NEWLINE] ++ jstr "y'} ")
      \/ (isValidJSON JSON.valid (TrimSpace (jstr "{'a':'x" ++ [NEWLINE] ++ jstr "y'} ")) = false
          /\ extractJSON JSON.valid (jstr "{'a':'x" ++ [NEWLINE] ++ jstr "y'} ")
             = repairCommonJSONIssues
                 (TrimSpace (jstr "{'a':'x" ++ [NEWLINE] ++ jstr "y'} ")))).
Proof.
  split; [vm_compute; discriminate|].
  apply (extractJSON_substring_or_repaired JSON.valid). vm_compute. discriminate.
Defined.

(** C7, as stated, fails. The response is an object whose string value
    holds a literal line feed: strategy 2 returns the repaired text, in
    which the line feed has become backslash, n, and that text occurs
    nowhere in the response. *)
Lemma extractJSON_not_substring :
  extractJSON JSON.valid (jstr "{'a':'x" ++ [NEWLINE] ++ jstr "y'}")
  = jstr "{'a':'x\ny'}"
  /\ ~ Substring (extractJSON JSON.valid (jstr "{'a':'x" ++ [NEWLINE] ++ jstr "y'}"))
         (jstr "{'a':'x" ++ [NEWLINE] ++ jstr "y'}").
Proof.
  split; [vm_compute; reflexivity|].
  intros H. apply Contains_Substring in H. vm_compute in H. discriminate.
Qed.

(** ** The balanced-span extractor *)

Section BalancedSpan.

Variable jsonUnmarshalOK : gostring -> bool.
Variables (response : gostring) (openChar closeChar : rune).

Local Abbreviation iter := (bound_iter jsonUnmarshalOK response openChar closeChar).
Local Abbreviation loop := (bound_loop jsonUnmarshalOK response openChar closeChar).






End BalancedSpan.





(** The extractor itself finds the array when it is given brackets. *)
Lemma array_found_with_brackets :
  extractJSONBoundaries JSON.valid (str "Here: [1,2,3] ok") LBRACKET RBRACKET
  = str "[1,2,3]".
Proof. vm_compute. reflexivity. Qed.

(** ** The retry loops *)

Ltac loop_cases :=
  repeat match goal with
         | |- context [match ?x with _ => _ end] =>
             match type of x with
             | Reply => destruct x
             | option _ => destruct x
             | sum _ _ => destruct x
             | bool => destruct x
             end
         end.

Section OllamaLoop.

Variable Data : Type.
Variable jsonUnmarshalOK : gostring -> bool.
Variable call : Z -> Reply.
Variable request : ChatRequest Data.
Variable retryConfig : RetryConfig.

Local Abbreviation attempts :=
  (Ollama.attempts Data jsonUnmarshalOK call request retryConfig).

(** A run is a number of attempts in a row, each opened by its events. *)
Lemma Ollama_attempts_events (remaining : nat) (attempt : Z) (lastErr : option error) :
  exists n, (n <= remaining)%nat
            /\ run_events (attempts remaining attempt lastErr)
               = eventsOfAttempts retryConfig attempt n.
Proof.
  revert attempt lastErr.
  induction remaining as [|remaining IH]; intros attempt lastErr.
  - exists O. split; [lia | reflexivity].
  - cbn [Ollama.attempts].
    assert (Hfin : forall resp err,
               exists n, (n <= S remaining)%nat
                 /\ run_events (before (attemptEvents retryConfig attempt)
                                  (finish (Data:=Data) resp err))
                    = eventsOfAttempts retryConfig attempt n).
    { intros resp err. exists 1%nat. split; [lia|]. reflexivity. }
    assert (Hrec : forall err,
               exists n, (n <= S remaining)%nat
                 /\ run_events (before (attemptEvents retryConfig attempt)
                                  (attempts remaining (attempt + 1) err))
                    = eventsOfAttempts retryConfig attempt n).
    { intros err. destruct (IH (attempt + 1) err) as (n & Hn & He).
      exists (S n). split; [lia|]. cbn [before run_events eventsOfAttempts].
      rewrite He. reflexivity. }
    loop_cases; auto.
Qed.

End OllamaLoop.

Lemma attemptEvents_first (retryConfig : RetryConfig) :
  attemptEvents retryConfig 0 = [Call 0].
Proof. reflexivity. Qed.

Lemma attemptEvents_later (retryConfig : RetryConfig) (k : Z) :
  1 <= k -> attemptEvents retryConfig k = [Sleep (backoffDelay retryConfig k); Call k].
Proof.
  intros Hk. unfold attemptEvents.
  replace (0 <? k) with true by (symmetry; apply Z.ltb_lt; lia). reflexivity.
Qed.

Lemma backoffDelay_min (retryConfig : RetryConfig) (k product : Z) :
  int64_of_float64
    (float64_of_int (BaseDelay retryConfig)
     * pow (BackoffFactor retryConfig) (k - 1))%float = Some product ->
  backoffDelay retryConfig k = Some (Z.min product (MaxDelay retryConfig)).
Proof.
  intros H. unfold backoffDelay. rewrite H. f_equal.
  destruct (MaxDelay retryConfig <? product) eqn:Hc.
  - apply Z.ltb_lt in Hc. lia.
  - apply Z.ltb_ge in Hc. lia.
Qed.

Lemma default_delays_exact (k : Z) :
  1 <= k <= 33 ->
  backoffDelay DefaultRetryConfig k
  = Some (Z.min (2 * Second * 2 ^ (k - 1)) (30 * Second)).
Proof.
  intros Hk.
  assert (Hall : forallb
            (fun n => match backoffDelay DefaultRetryConfig (Z.of_nat n) with
                      | Some d => d =? Z.min (2 * Second * 2 ^ (Z.of_nat n - 1))
                                         (30 * Second)
                      | None => false
                      end) (seq 1 33) = true) by (vm_compute; reflexivity).
  rewrite forallb_forall in Hall.
  specialize (Hall (Z.to_nat k)).
  rewrite Z2Nat.id in Hall by lia.
  assert (Hin : In (Z.to_nat k) (seq 1 33)) by (apply in_seq; lia).
  specialize (Hall Hin).
  destruct (backoffDelay DefaultRetryConfig k); [|discriminate].
  apply Z.eqb_eq in Hall. congruence.
Qed.

(** C9, as the code has it. A run is a row of attempts; attempt 0 opens
    with its call and no sleep, an attempt [k >= 1] opens with a sleep of
    [backoffDelay k]; when the [float64] product of the base delay and of
    [k - 1] factors fits [int64], that delay is the product, cut to whole
    nanoseconds, capped by the maximum delay.  For the default policy the
    delays before attempts 1, 2, 3 are 2s, 4s, 8s, and the delay before
    attempt [k] is [min (2s * 2^(k-1), 30s)] up to [k = 33]. *)
Theorem backoff_delays (Data : Type) (jsonUnmarshalOK : gostring -> bool)
    (call : Z -> Reply) (request : ChatRequest Data) (retryConfig : RetryConfig) :
  (exists n, (n <= Z.to_nat (MaxRetries retryConfig + 1))%nat
     /\ run_events (Ollama.ChatWithRetry Data jsonUnmarshalOK call request retryConfig)
        = eventsOfAttempts retryConfig 0 n)
  /\ attemptEvents retryConfig 0 = [Call 0]
  /\ (forall k, 1 <= k ->
        attemptEvents retryConfig k = [Sleep (backoffDelay retryConfig k); Call k])
  /\ (forall k product,
        int64_of_float64
          (float64_of_int (BaseDelay retryConfig)
           * pow (BackoffFactor retryConfig) (k - 1))%float = Some product ->
        backoffDelay retryConfig k = Some (Z.min product (MaxDelay retryConfig)))
  /\ map (backoffDelay DefaultRetryConfig) [1; 2; 3]
     = [Some (2 * Second); Some (4 * Second); Some (8 * Second)]
  /\ (forall k, 1 <= k <= 33 ->
        backoffDelay DefaultRetryConfig k
        = Some (Z.min (2 * Second * 2 ^ (k - 1)) (30 * Second))).
Proof.
  split; [apply Ollama_attempts_events|].
  split; [apply attemptEvents_first|].
  split; [apply attemptEvents_later|].
  split; [apply backoffDelay_min|].
  split; [vm_compute; reflexivity | apply default_delays_exact].
Qed.

Lemma backoff_delays_witness :
  run_events (Ollama.ChatWithRetry unit JSON.valid
                (fun _ => Failure (str "connection refused")) sampleRequest
                DefaultRetryConfig)
  = [Call 0; Sleep (Some (2 * Second)); Call 1; Sleep (Some (4 * Second));
     Call 2; Sleep (Some (8 * Second)); Call 3]
  /\ attemptEvents DefaultRetryConfig 5 = [Sleep (Some (30 * Second)); Call 5].
Proof.
  destruct (backoff_delays unit JSON.valid
              (fun _ => Failure (str "connection refused")) sampleRequest
              DefaultRetryConfig) as (_ & _ & Hlater & Hmin & _ & Hexact).
  split; [vm_compute; reflexivity|].
  rewrite (Hlater 5) by lia. rewrite (Hexact 5) by lia. reflexivity.
Defined.

(** C9, as stated, fails. With a base delay of 3ns and a factor of 1.5
    the delay slept before attempt 2 is 4ns, where
    [min (base * factor^(2-1), max)] is 4.5ns: the product is cut to a
    whole number of nanoseconds. *)
Lemma delay_is_truncated :
  let retryConfig := {| MaxRetries := 3; BaseDelay := 3;
                        MaxDelay := 30 * Second; BackoffFactor := 1.5%float |} in
  backoffDelay retryConfig 2 = Some 4
  /\ (Qmin (inject_Z (BaseDelay retryConfig)
            * Q_of_float64 (BackoffFactor retryConfig) ^ (2 - 1))
           (inject_Z (MaxDelay retryConfig)) == 9 # 2)%Q
  /\ ~ (inject_Z 4 == 9 # 2)%Q.
Proof.
  cbv zeta. split; [vm_compute; reflexivity|].
  split; [vm_compute; reflexivity|]. intros H. vm_compute in H. discriminate.
Qed.

Lemma Google_classifyError_auth (errStr : gostring) (attempt : Z) (operation : gostring) :
  authText errStr = true -> transportText errStr = false ->
  Google.classifyError errStr attempt operation
  = NewLLMError ErrInvalidConfig (str "authentication failed") operation false
      attempt (Some errStr).
Proof.
  unfold authText, transportText, Google.classifyError. intros Ha Ht.
  repeat (apply orb_false_iff in Ht as [Ht ?]).
  repeat match goal with H : Contains _ _ = false |- _ => rewrite H; clear H end.
  simpl. rewrite Ha. reflexivity.
Qed.

Section GoogleLoop.

Variable Data : Type.
Variable jsonUnmarshalOK : gostring -> bool.
Variable call : Z -> Reply.
Variable request : ChatRequest Data.
Variable retryConfig : RetryConfig.

Local Abbreviation attempts :=
  (Google.attempts Data jsonUnmarshalOK call request retryConfig).

(** An authentication failure ends the loop in the attempt in which it
    happens, whatever is left of the budget. *)
Lemma Google_attempts_auth (remaining : nat) (attempt : Z)
    (lastErr : option error) (errStr : gostring) :
  call attempt = Failure errStr ->
  authText errStr = true -> transportText errStr = false ->
  attempts (S remaining) attempt lastErr
  = {| run_response := emptyResponse;
       run_error := Some (LLMErr (NewLLMError ErrInvalidConfig
                                    (str "authentication failed") (str "chat")
                                    false attempt (Some errStr)));
       run_events := attemptEvents retryConfig attempt |}.
Proof.
  intros Hcall Ha Ht. cbn [Google.attempts].
  rewrite Hcall, (Google_classifyError_auth _ _ _ Ha Ht).
  cbn [IsRetryable Retryable NewLLMError]. rewrite andb_false_r.
  unfold before, finish. cbn [run_response run_error run_events].
  rewrite app_nil_r. reflexivity.
Qed.

(** When every call answers with an empty text, every attempt of the
    budget is made and the run ends on the invalid-response error of
    the last one. *)
Lemma Google_attempts_empty (remaining : nat) (attempt : Z) (lastErr : option error) :
  (forall k, call k = Success []) ->
  attempt + Z.of_nat remaining = MaxRetries retryConfig ->
  attempts (S remaining) attempt lastErr
  = {| run_response := emptyResponse;
       run_error := Some (LLMErr (NewLLMError ErrInvalidResponse
                                    (str "empty response from Google API")
                                    (str "chat") true (MaxRetries retryConfig) None));
       run_events := eventsOfAttempts retryConfig attempt (S remaining) |}.
Proof.
  intros Hcall. revert attempt lastErr.
  induction remaining as [|remaining IH]; intros attempt lastErr Hbudget.
  - cbn [Google.attempts]. rewrite Hcall. cbn [nonempty negb].
    replace (attempt <? MaxRetries retryConfig) with false
      by (symmetry; apply Z.ltb_ge; lia).
    replace attempt with (MaxRetries retryConfig) by lia.
    unfold before, finish. cbn [run_response run_error run_events eventsOfAttempts].
    reflexivity.
  - remember (S remaining) as budget eqn:Hb.
    cbn [Google.attempts]. rewrite Hcall. cbn [nonempty negb].
    replace (attempt <? MaxRetries retryConfig) with true
      by (symmetry; apply Z.ltb_lt; lia).
    subst budget. rewrite IH by lia.
    unfold before. cbn [run_response run_error run_events eventsOfAttempts].
    reflexivity.
Qed.

End GoogleLoop.

(** C1, as the code has it. In the Google provider, under every retry
    policy, a first call that fails with a text holding one of the
    authentication markers and none of the connectivity and deadline
    markers tested before them is classified as a non-retryable
    invalid-configuration error, and the run ends on it after that one
    call, with no sleep and no further attempt. *)
Theorem google_auth_failure_ends_run (Data : Type)
    (jsonUnmarshalOK : gostring -> bool) (call : Z -> Reply)
    (request : ChatRequest Data) (retryConfig : RetryConfig) (errStr : gostring) :
  0 <= MaxRetries retryConfig ->
  call 0 = Failure errStr ->
  authText errStr = true -> transportText errStr = false ->
  IsRetryable (LLMErr (Google.classifyError errStr 0 (str "chat"))) = false
  /\ Google.ChatWithRetry Data jsonUnmarshalOK call request retryConfig
     = {| run_response := emptyResponse;
          run_error := Some (LLMErr (NewLLMError ErrInvalidConfig
                                       (str "authentication failed") (str "chat")
                                       false 0 (Some errStr)));
          run_events := [Call 0] |}.
Proof.
  intros Hmax Hcall Ha Ht. split.
  - rewrite (Google_classifyError_auth _ _ _ Ha Ht). reflexivity.
  - unfold Google.ChatWithRetry.
    replace (Z.to_nat (MaxRetries retryConfig + 1))
      with (S (Z.to_nat (MaxRetries retryConfig))) by lia.
    rewrite (Google_attempts_auth _ _ _ _ _ _ _ _ errStr Hcall Ha Ht). reflexivity.
Qed.

Lemma google_auth_failure_ends_run_witness :
  IsRetryable (LLMErr (Google.classifyError (str "invalid api key") 0 (str "chat")))
  = false
  /\ Google.ChatWithRetry unit JSON.valid (fun _ => Failure (str "invalid api key"))
       sampleRequest DefaultRetryConfig
     = {| run_response := emptyResponse;
          run_error := Some (LLMErr (NewLLMError ErrInvalidConfig
                                       (str "authentication failed") (str "chat")
                                       false 0 (Some (str "invalid api key"))));
          run_events := [Call 0] |}.
Proof.
  apply (google_auth_failure_ends_run unit JSON.valid
           (fun _ => Failure (str "invalid api key")) sampleRequest
           DefaultRetryConfig (str "invalid api key"));
    [vm_compute; discriminate | reflexivity | vm_compute; reflexivity
    | vm_compute; reflexivity].
Defined.

(** C1, as stated, fails. The Ollama classifier has no authentication
    category: a failure whose text is "invalid api key" is an
    operation-failed, retryable error there, and under the default
    policy the call is made four times.  In the Google classifier a
    deadline marker in the same text wins over the authentication
    marker, and the error is retryable. *)
Lemma auth_text_is_retried :
  IsRetryable (LLMErr (Ollama.classifyError (str "invalid api key") 0 (str "chat")))
  = true
  /\ run_events (Ollama.ChatWithRetry unit JSON.valid
                   (fun _ => Failure (str "invalid api key")) sampleRequest
                   DefaultRetryConfig)
     = [Call 0; Sleep (Some (2 * Second)); Call 1; Sleep (Some (4 * Second));
        Call 2; Sleep (Some (8 * Second)); Call 3]
  /\ IsRetryable (LLMErr (Google.classifyError
                            (str "invalid api key: request timeout") 0 (str "chat")))
     = true.
Proof. repeat split; vm_compute; reflexivity. Qed.

(** C2. In the Ollama client a call that succeeds with an empty text,
    for a request without target shape, is returned at once as a success
    whose message is the empty string, under every policy that allows a
    first attempt: the loop has no test for an empty response. *)
Theorem ollama_empty_text_is_success (Data : Type)
    (jsonUnmarshalOK : gostring -> bool) (call : Z -> Reply)
    (request : ChatRequest Data) (retryConfig : RetryConfig) :
  0 <= MaxRetries retryConfig ->
  call 0 = Success [] -> T request = None ->
  Ollama.ChatWithRetry Data jsonUnmarshalOK call request retryConfig
  = {| run_response := {| resp_Message := []; resp_Data := None |};
       run_error := None;
       run_events := [Call 0] |}.
Proof.
  intros Hmax Hcall HT. unfold Ollama.ChatWithRetry.
  replace (Z.to_nat (MaxRetries retryConfig + 1))
    with (S (Z.to_nat (MaxRetries retryConfig))) by lia.
  cbn [Ollama.attempts]. rewrite Hcall, HT. reflexivity.
Qed.

Lemma ollama_empty_text_is_success_witness :
  Ollama.ChatWithRetry unit JSON.valid (fun _ => Success []) sampleRequest
    DefaultRetryConfig
  = {| run_response := {| resp_Message := []; resp_Data := None |};
       run_error := None;
       run_events := [Call 0] |}.
Proof.
  apply (ollama_empty_text_is_success unit JSON.valid (fun _ => Success [])
           sampleRequest DefaultRetryConfig);
    [vm_compute; discriminate | reflexivity | reflexivity].
Defined.

(** The Google provider does what the Ollama client misses: when every
    call succeeds with an empty text, each attempt is a retryable
    invalid-response failure and the run ends, budget exhausted, on that
    error. *)
Lemma google_empty_text_exhausts (Data : Type)
    (jsonUnmarshalOK : gostring -> bool) (request : ChatRequest Data)
    (retryConfig : RetryConfig) :
  0 <= MaxRetries retryConfig ->
  Google.ChatWithRetry Data jsonUnmarshalOK (fun _ => Success []) request retryConfig
  = {| run_response := emptyResponse;
       run_error := Some (LLMErr (NewLLMError ErrInvalidResponse
                                    (str "empty response from Google API")
                                    (str "chat") true (MaxRetries retryConfig) None));
       run_events := eventsOfAttempts retryConfig 0
                       (S (Z.to_nat (MaxRetries retryConfig))) |}.
Proof.
  intros Hmax. unfold Google.ChatWithRetry.
  replace (Z.to_nat (MaxRetries retryConfig + 1))
    with (S (Z.to_nat (MaxRetries retryConfig))) by lia.
  apply Google_attempts_empty; [reflexivity | lia].
Qed.

(** ** The provider cache of the factory *)

Section FactoryCache.

Import Factory.
Variable Provider : Type.



Lemma LoadConfig_rejects (f f' : LLMFactory Provider) (c : FactoryConfig) (err : error) :
  LoadConfig Provider f c = (Some err, f') -> f' = f.
Proof.
  unfold LoadConfig.
  destruct (negb (nonempty (DefaultProvider c))); [intros [= _ <-]; reflexivity|].
  destruct (Nat.eqb (size (Providers c)) 0); [intros [= _ <-]; reflexivity|].
  destruct (Providers c !! DefaultProvider c); [discriminate|].
  intros [= _ <-]. reflexivity.
Qed.


End FactoryCache.


(** ** The examples of the specification, run on the model *)

(** A fenced block between two pieces of prose: the fenced text is
    returned. *)
Example fenced_block_extracted :
  extractJSON JSON.valid
    (str "Sure! " ++ MD_JSON ++ [NEWLINE] ++ jstr "{'a':1}" ++ [NEWLINE]
     ++ MD_FENCE ++ str " Anything else?")
  = jstr "{'a':1}".
Proof. vm_compute. reflexivity. Qed.

(** Nested braces are tracked: the whole outer object is returned. *)
Example nested_object_extracted :
  extractWithBraceCounting JSON.valid
    (str "Here's the JSON: " ++ jstr "{'x': [1,2,{'y':3}]}" ++ str " Hope that helps!")
  = jstr "{'x': [1,2,{'y':3}]}".
Proof. vm_compute. reflexivity. Qed.

(** Braces inside a quoted string do not end the span. *)
Example braces_in_string_skipped :
  extractWithBraceCounting JSON.valid
    (str "Note: " ++ jstr "{'note':'use {curly} braces'}" ++ str " (end)")
  = jstr "{'note':'use {curly} braces'}".
Proof. vm_compute. reflexivity. Qed.

(** A literal line feed inside a string value: the text does not
    validate, its repair does. *)
Example literal_newline_repaired :
  JSON.valid (jstr "{'a':'line1" ++ [NEWLINE] ++ jstr "line2'}") = false
  /\ repairCommonJSONIssues (jstr "{'a':'line1" ++ [NEWLINE] ++ jstr "line2'}")
     = jstr "{'a':'line1\nline2'}"
  /\ JSON.valid (jstr "{'a':'line1\nline2'}") = true.
Proof. repeat split; vm_compute; reflexivity. Qed.

(** A text that validates is returned as it is, trimmed. *)
Example valid_text_returned_trimmed (jsonUnmarshalOK : gostring -> bool) (s : gostring) :
  isValidJSON jsonUnmarshalOK (TrimSpace s) = true ->
  extractJSON jsonUnmarshalOK s = TrimSpace s.
Proof. intros H. unfold extractJSON. rewrite H. reflexivity. Qed.

(** * Beyond the claims *)

(** ** The classifiers *)

Lemma Ollama_classifyError_fields (errStr : gostring) (attempt : Z) (operation : gostring) :
  Operation (Ollama.classifyError errStr attempt operation) = operation
  /\ RetryCount (Ollama.classifyError errStr attempt operation) = attempt
  /\ Cause (Ollama.classifyError errStr attempt operation) = Some errStr.
Proof.
  unfold Ollama.classifyError.
  repeat match goal with
         | |- context [if ?c then _ else _] => destruct c
         end; repeat split; reflexivity.
Qed.

Lemma Google_classifyError_fields (errStr : gostring) (attempt : Z) (operation : gostring) :
  Operation (Google.classifyError errStr attempt operation) = operation
  /\ RetryCount (Google.classifyError errStr attempt operation) = attempt
  /\ Cause (Google.classifyError errStr attempt operation) = Some errStr.
Proof.
  unfold Google.classifyError.
  repeat match goal with
         | |- context [if ?c then _ else _] => destruct c
         end; repeat split; reflexivity.
Qed.

(** ** The retry loops as a row of attempts *)

Lemma eventsOfAttempts_app (retryConfig : RetryConfig) (from : Z) (n m : nat) :
  eventsOfAttempts retryConfig from (n + m)
  = eventsOfAttempts retryConfig from n
    ++ eventsOfAttempts retryConfig (from + Z.of_nat n) m.
Proof.
  revert from. induction n as [|n IH]; intros from.
  - simpl. f_equal. lia.
  - cbn [Nat.add eventsOfAttempts]. rewrite IH, <- app_assoc.
    do 3 f_equal. lia.
Qed.

Section RetryLoop.

Variable Data : Type.
Variable retryConfig : RetryConfig.
Variable outcome : Z -> LLMError + ChatResponse Data.
Variable att : nat -> Z -> option error -> Run Data.

Hypothesis att_O : forall attempt lastErr,
  att O attempt lastErr = finish emptyResponse lastErr.

Hypothesis att_S : forall remaining attempt lastErr,
  att (S remaining) attempt lastErr
  = before (attemptEvents retryConfig attempt)
      match outcome attempt with
      | inl llmErr =>
          if (attempt <? MaxRetries retryConfig) && Retryable llmErr
          then att remaining (attempt + 1) (Some (LLMErr llmErr))
          else finish emptyResponse (Some (LLMErr llmErr))
      | inr response => finish response None
      end.

Lemma RunOf_one (attempt : Z) (r : Run Data) :
  run_events r = attemptEvents retryConfig attempt ->
  (run_response r, run_error r) = resultOf (outcome attempt) ->
  RunOf retryConfig outcome attempt 1 r.
Proof.
  intros Hev Hres. split; [|split].
  - rewrite Hev. cbn [eventsOfAttempts]. rewrite app_nil_r. reflexivity.
  - intros j Hj. lia.
  - replace (attempt + Z.of_nat 1 - 1) with attempt by lia. exact Hres.
Qed.

Lemma RunOf_before (attempt : Z) (n : nat) (r : Run Data) (llmErr : LLMError) :
  (1 <= n)%nat ->
  attempt < MaxRetries retryConfig ->
  outcome attempt = inl llmErr -> Retryable llmErr = true ->
  RunOf retryConfig outcome (attempt + 1) n r ->
  RunOf retryConfig outcome attempt (S n)
    (before (attemptEvents retryConfig attempt) r).
Proof using Type.
  intros Hn Hlt Hout Hretry (Hev & Hearlier & Hres). split; [|split].
  - cbn [before run_events eventsOfAttempts]. rewrite Hev. reflexivity.
  - intros j Hj. destruct (Z.eq_dec j attempt) as [->|Hne].
    + split; [exact Hlt | eauto].
    + apply Hearlier. lia.
  - cbn [before run_response run_error].
    replace (attempt + Z.of_nat (S n) - 1) with (attempt + 1 + Z.of_nat n - 1) by lia.
    exact Hres.
Qed.

(** A loop with budget left is a row of attempts that stops at the
    first attempt that succeeds, fails with a non-retryable error, or
    uses up the budget. *)
Lemma att_RunOf (remaining : nat) (attempt : Z) (lastErr : option error) :
  exists n, (1 <= n <= S remaining)%nat
            /\ RunOf retryConfig outcome attempt n (att (S remaining) attempt lastErr).
Proof using att_O att_S.
  revert attempt lastErr.
  induction remaining as [|remaining IH]; intros attempt lastErr;
    rewrite att_S; destruct (outcome attempt) as [llmErr|response] eqn:Hout.
  - exists 1%nat. split; [lia|]. apply RunOf_one.
    + destruct (_ && _); [rewrite att_O|]; cbn; apply app_nil_r.
    + rewrite Hout. destruct (_ && _); [rewrite att_O|]; reflexivity.
  - exists 1%nat. split; [lia|]. apply RunOf_one; [cbn; apply app_nil_r|].
    rewrite Hout. reflexivity.
  - destruct ((attempt <? MaxRetries retryConfig) && Retryable llmErr) eqn:Hgo.
    + apply andb_true_iff in Hgo as [Hlt Hretry]. apply Z.ltb_lt in Hlt.
      destruct (IH (attempt + 1) (Some (LLMErr llmErr))) as (n & Hn & Hrun).
      exists (S n). split; [lia|].
      apply (RunOf_before attempt n _ llmErr); auto; lia.
    + exists 1%nat. split; [lia|]. apply RunOf_one; [cbn; apply app_nil_r|].
      rewrite Hout. reflexivity.
  - exists 1%nat. split; [lia|]. apply RunOf_one; [cbn; apply app_nil_r|].
    rewrite Hout. reflexivity.
Qed.

(** The stored error does not matter once an attempt is made. *)
Lemma att_lastErr (remaining : nat) (attempt : Z) (e1 e2 : option error) :
  att (S remaining) attempt e1 = att (S remaining) attempt e2.
Proof using att_S. rewrite !att_S. reflexivity. Qed.

(** Attempts that end with a retryable error while budget is left are
    gone through one after the other. *)
Lemma att_skip (k remaining : nat) (attempt : Z) (lastErr : option error) :
  (forall j, attempt <= j < attempt + Z.of_nat k ->
     j < MaxRetries retryConfig
     /\ exists llmErr, outcome j = inl llmErr /\ Retryable llmErr = true) ->
  att (k + S remaining) attempt lastErr
  = before (eventsOfAttempts retryConfig attempt k)
      (att (S remaining) (attempt + Z.of_nat k) None).
Proof using att_S.
  revert attempt lastErr. induction k as [|k IH]; intros attempt lastErr Hall.
  - cbn [Nat.add eventsOfAttempts]. replace (attempt + Z.of_nat 0) with attempt by lia.
    rewrite (att_lastErr _ _ lastErr None).
    destruct (att (S remaining) attempt None). reflexivity.
  - cbn [Nat.add]. rewrite att_S.
    destruct (Hall attempt) as (Hlt & llmErr & Hout & Hretry); [lia|].
    rewrite Hout, Hretry.
    replace (attempt <? MaxRetries retryConfig) with true
      by (symmetry; apply Z.ltb_lt; exact Hlt).
    cbn [andb]. rewrite IH by (intros j Hj; apply Hall; lia).
    replace (attempt + 1 + Z.of_nat k) with (attempt + Z.of_nat (S k)) by lia.
    unfold before. cbn [run_response run_error run_events eventsOfAttempts].
    rewrite app_assoc. reflexivity.
Qed.

End RetryLoop.

Lemma structuredOutcome_error {Data : Type} (jsonUnmarshalOK : gostring -> bool)
    (request : ChatRequest Data) (attempt : Z) (text : gostring) (llmErr : LLMError) :
  structuredOutcome jsonUnmarshalOK request attempt text = inl llmErr ->
  err_Type llmErr = ErrJSONParseFailed /\ Retryable llmErr = true
  /\ Operation llmErr = str "chat" /\ RetryCount llmErr = attempt.
Proof.
  unfold structuredOutcome. destruct (T request) as [targetType|]; [|discriminate].
  cbv zeta. destruct (negb _).
  - intros [= <-]. repeat split.
  - destruct (targetType _); [discriminate|]. intros [= <-]. repeat split.
Qed.


Section OllamaRun.

Variable Data : Type.
Variable jsonUnmarshalOK : gostring -> bool.
Variable call : Z -> Reply.
Variable request : ChatRequest Data.
Variable retryConfig : RetryConfig.

Lemma Ollama_att_O (attempt : Z) (lastErr : option error) :
  Ollama.attempts Data jsonUnmarshalOK call request retryConfig O attempt lastErr
  = finish emptyResponse lastErr.
Proof. reflexivity. Qed.

(** The body of the Ollama loop, attempt by attempt. *)
Lemma Ollama_att_S (remaining : nat) (attempt : Z) (lastErr : option error) :
  Ollama.attempts Data jsonUnmarshalOK call request retryConfig
    (S remaining) attempt lastErr
  = before (attemptEvents retryConfig attempt)
      match ollamaAttempt jsonUnmarshalOK call request attempt with
      | inl llmErr =>
          if (attempt <? MaxRetries retryConfig) && Retryable llmErr
          then Ollama.attempts Data jsonUnmarshalOK call request retryConfig
                 remaining (attempt + 1) (Some (LLMErr llmErr))
          else finish emptyResponse (Some (LLMErr llmErr))
      | inr response => finish response None
      end.
Proof.
  cbn [Ollama.attempts]. unfold ollamaAttempt, structuredOutcome. f_equal.
  destruct (call attempt) as [errStr|text]; [reflexivity|].
  destruct (T request) as [targetType|]; [|reflexivity].
  cbv zeta. destruct (negb _).
  - cbn [noJSONError NewLLMError Retryable]. rewrite andb_true_r. reflexivity.
  - destruct (targetType _); [reflexivity|].
    cbn [unmarshalError NewLLMError Retryable]. rewrite andb_true_r. reflexivity.
Qed.

Lemma ollamaAttempt_error (attempt : Z) (llmErr : LLMError) :
  ollamaAttempt jsonUnmarshalOK call request attempt = inl llmErr ->
  Operation llmErr = str "chat" /\ RetryCount llmErr = attempt.
Proof.
  unfold ollamaAttempt. destruct (call attempt) as [errStr|text].
  - intros [= <-].
    destruct (Ollama_classifyError_fields errStr attempt (str "chat")) as (H1 & H2 & _).
    split; assumption.
  - intros H. apply structuredOutcome_error in H. tauto.
Qed.

End OllamaRun.

Section GoogleRun.

Variable Data : Type.
Variable jsonUnmarshalOK : gostring -> bool.
Variable call : Z -> Reply.
Variable request : ChatRequest Data.
Variable retryConfig : RetryConfig.

Lemma Google_att_O (attempt : Z) (lastErr : option error) :
  Google.attempts Data jsonUnmarshalOK call request retryConfig O attempt lastErr
  = finish emptyResponse lastErr.
Proof. reflexivity. Qed.

(** The body of the Google loop, attempt by attempt. *)
Lemma Google_att_S (remaining : nat) (attempt : Z) (lastErr : option error) :
  Google.attempts Data jsonUnmarshalOK call request retryConfig
    (S remaining) attempt lastErr
  = before (attemptEvents retryConfig attempt)
      match googleAttempt jsonUnmarshalOK call request attempt with
      | inl llmErr =>
          if (attempt <? MaxRetries retryConfig) && Retryable llmErr
          then Google.attempts Data jsonUnmarshalOK call request retryConfig
                 remaining (attempt + 1) (Some (LLMErr llmErr))
          else finish emptyResponse (Some (LLMErr llmErr))
      | inr response => finish response None
      end.
Proof.
  cbn [Google.attempts]. unfold googleAttempt, structuredOutcome. f_equal.
  destruct (call attempt) as [errStr|text]; [reflexivity|].
  destruct (negb (nonempty text)).
  { cbn [NewLLMError Retryable]. rewrite andb_true_r. reflexivity. }
  destruct (T request) as [targetType|]; [|reflexivity].
  cbv zeta. destruct (negb _).
  - cbn [noJSONError NewLLMError Retryable]. rewrite andb_true_r. reflexivity.
  - destruct (targetType _); [reflexivity|].
    cbn [unmarshalError NewLLMError Retryable]. rewrite andb_true_r. reflexivity.
Qed.

Lemma googleAttempt_error (attempt : Z) (llmErr : LLMError) :
  googleAttempt jsonUnmarshalOK call request attempt = inl llmErr ->
  Operation llmErr = str "chat" /\ RetryCount llmErr = attempt.
Proof.
  unfold googleAttempt. destruct (call attempt) as [errStr|text].
  - intros [= <-].
    destruct (Google_classifyError_fields errStr attempt (str "chat")) as (H1 & H2 & _).
    split; assumption.
  - destruct (negb (nonempty text)).
    + intros [= <-]. split; reflexivity.
    + intros H. apply structuredOutcome_error in H. tauto.
Qed.

End GoogleRun.

Section RetryLoopDecided.

Variable Data : Type.
Variable retryConfig : RetryConfig.
Variable outcome : Z -> LLMError + ChatResponse Data.
Variable att : nat -> Z -> option error -> Run Data.

Hypothesis att_O : forall attempt lastErr,
  att O attempt lastErr = finish emptyResponse lastErr.

Hypothesis att_S : forall remaining attempt lastErr,
  att (S remaining) attempt lastErr
  = before (attemptEvents retryConfig attempt)
      match outcome attempt with
      | inl llmErr =>
          if (attempt <? MaxRetries retryConfig) && Retryable llmErr
          then att remaining (attempt + 1) (Some (LLMErr llmErr))
          else finish emptyResponse (Some (LLMErr llmErr))
      | inr response => finish response None
      end.

(** The run is decided by the first attempt that succeeds, fails with a
    non-retryable error, or is the last of the budget. *)
Lemma att_decided (k : nat) :
  Z.of_nat k <= MaxRetries retryConfig ->
  (forall j, 0 <= j < Z.of_nat k ->
     exists llmErr, outcome j = inl llmErr /\ Retryable llmErr = true) ->
  (Z.of_nat k = MaxRetries retryConfig
   \/ (exists response, outcome (Z.of_nat k) = inr response)
   \/ (exists llmErr, outcome (Z.of_nat k) = inl llmErr /\ Retryable llmErr = false)) ->
  att (Z.to_nat (MaxRetries retryConfig + 1)) 0 None
  = {| run_response := fst (resultOf (outcome (Z.of_nat k)));
       run_error := snd (resultOf (outcome (Z.of_nat k)));
       run_events := eventsOfAttempts retryConfig 0 (S k) |}.
Proof using att_O att_S.
  intros Hk Hearlier Hlast.
  replace (Z.to_nat (MaxRetries retryConfig + 1))
    with (k + S (Z.to_nat (MaxRetries retryConfig) - k))%nat by lia.
  rewrite (att_skip Data retryConfig outcome att att_S).
  2:{ intros j Hj. split; [lia|]. apply Hearlier. lia. }
  rewrite att_S. rewrite !Z.add_0_l.
  replace (S k) with (k + 1)%nat by lia. rewrite eventsOfAttempts_app, Z.add_0_l.
  cbn [eventsOfAttempts]. rewrite app_nil_r.
  assert (Hstop : forall llmErr,
            outcome (Z.of_nat k) = inl llmErr ->
            (Z.of_nat k <? MaxRetries retryConfig) && Retryable llmErr = true ->
            False).
  { intros llmErr Hout Hgo. apply andb_true_iff in Hgo as [Hlt Hretry].
    apply Z.ltb_lt in Hlt.
    destruct Hlast as [Heq | [[response Hr] | [e [He Hn]]]]; [lia | congruence |].
    rewrite Hout in He. injection He as <-. congruence. }
  destruct (outcome (Z.of_nat k)) as [llmErr|response] eqn:Hout.
  - destruct ((Z.of_nat k <? MaxRetries retryConfig) && Retryable llmErr) eqn:Hgo.
    + exfalso. exact (Hstop llmErr eq_refl Hgo).
    + unfold before, finish.
      cbn [run_response run_error run_events resultOf fst snd].
      rewrite ?app_nil_r. reflexivity.
  - unfold before, finish.
    cbn [run_response run_error run_events resultOf fst snd].
    rewrite ?app_nil_r. reflexivity.
Qed.

End RetryLoopDecided.

Lemma RunOf_FailsCleanly {Data : Type} (retryConfig : RetryConfig)
    (outcome : Z -> LLMError + ChatResponse Data) (n : nat) (r : Run Data) :
  (forall attempt llmErr, outcome attempt = inl llmErr ->
     Operation llmErr = str "chat" /\ RetryCount llmErr = attempt) ->
  (1 <= n)%nat -> Z.of_nat n <= MaxRetries retryConfig + 1 ->
  RunOf retryConfig outcome 0 n r ->
  FailsCleanly retryConfig r.
Proof.
  intros Hfields Hn Hmax (Hev & _ & Hres) e He.
  destruct (outcome (0 + Z.of_nat n - 1)) as [llmErr|response] eqn:Hout;
    cbn [resultOf] in Hres; injection Hres as Hresp Herr; [|congruence].
  rewrite He in Herr. injection Herr as ->.
  destruct (Hfields _ _ Hout) as [Hop Hcount].
  split; [exact Hresp|]. exists llmErr.
  split; [reflexivity|]. split; [exact Hop|]. split; [lia|].
  rewrite Hev, Hcount. f_equal. lia.
Qed.

Lemma Ollama_ChatWithRetry_RunOf (Data : Type)
    (jsonUnmarshalOK : gostring -> bool) (call : Z -> Reply)
    (request : ChatRequest Data) (retryConfig : RetryConfig) :
  0 <= MaxRetries retryConfig ->
  exists n, (1 <= n)%nat /\ Z.of_nat n <= MaxRetries retryConfig + 1
    /\ RunOf retryConfig (ollamaAttempt jsonUnmarshalOK call request) 0 n
         (Ollama.ChatWithRetry Data jsonUnmarshalOK call request retryConfig).
Proof.
  intros Hmax. unfold Ollama.ChatWithRetry.
  replace (Z.to_nat (MaxRetries retryConfig + 1))
    with (S (Z.to_nat (MaxRetries retryConfig))) by lia.
  destruct (att_RunOf Data retryConfig (ollamaAttempt jsonUnmarshalOK call request)
              (Ollama.attempts Data jsonUnmarshalOK call request retryConfig)
              (Ollama_att_O _ _ _ _ _) (Ollama_att_S _ _ _ _ _)
              (Z.to_nat (MaxRetries retryConfig)) 0 None) as (n & Hn & Hrun).
  exists n. split; [lia|]. split; [lia | exact Hrun].
Qed.

Lemma Google_ChatWithRetry_RunOf (Data : Type)
    (jsonUnmarshalOK : gostring -> bool) (call : Z -> Reply)
    (request : ChatRequest Data) (retryConfig : RetryConfig) :
  0 <= MaxRetries retryConfig ->
  exists n, (1 <= n)%nat /\ Z.of_nat n <= MaxRetries retryConfig + 1
    /\ RunOf retryConfig (googleAttempt jsonUnmarshalOK call request) 0 n
         (Google.ChatWithRetry Data jsonUnmarshalOK call request retryConfig).
Proof.
  intros Hmax. unfold Google.ChatWithRetry.
  replace (Z.to_nat (MaxRetries retryConfig + 1))
    with (S (Z.to_nat (MaxRetries retryConfig))) by lia.
  destruct (att_RunOf Data retryConfig (googleAttempt jsonUnmarshalOK call request)
              (Google.attempts Data jsonUnmarshalOK call request retryConfig)
              (Google_att_O _ _ _ _ _) (Google_att_S _ _ _ _ _)
              (Z.to_nat (MaxRetries retryConfig)) 0 None) as (n & Hn & Hrun).
  exists n. split; [lia|]. split; [lia | exact Hrun].
Qed.

(** X1. With a non-negative budget a run of the Ollama loop is a row of
    [n] attempts, [1 <= n <= MaxRetries + 1], numbered from 0, each after
    the first opened by its backoff sleep; every attempt but the last
    ended with a retryable error while budget was left, and the run
    returns what the last attempt ended with. *)
Theorem ollama_run_is_row_of_attempts (Data : Type)
    (jsonUnmarshalOK : gostring -> bool) (call : Z -> Reply)
    (request : ChatRequest Data) (retryConfig : RetryConfig) :
  0 <= MaxRetries retryConfig ->
  exists n, (1 <= n)%nat /\ Z.of_nat n <= MaxRetries retryConfig + 1
    /\ RunOf retryConfig (ollamaAttempt jsonUnmarshalOK call request) 0 n
         (Ollama.ChatWithRetry Data jsonUnmarshalOK call request retryConfig).
Proof. apply Ollama_ChatWithRetry_RunOf. Qed.

Lemma ollama_run_is_row_of_attempts_witness :
  0 <= MaxRetries DefaultRetryConfig
  /\ exists n, (1 <= n)%nat /\ Z.of_nat n <= MaxRetries DefaultRetryConfig + 1
       /\ RunOf DefaultRetryConfig
            (ollamaAttempt JSON.valid
               (failThenAnswer 2 (str "connection refused") (str "Hello!"))
               sampleRequest) 0 n
            (Ollama.ChatWithRetry unit JSON.valid
               (failThenAnswer 2 (str "connection refused") (str "Hello!"))
               sampleRequest DefaultRetryConfig).
Proof.
  split; [vm_compute; discriminate|].
  apply ollama_run_is_row_of_attempts. vm_compute. discriminate.
Defined.

(** X2. The same for the Google loop, whose attempts also end with a
    retryable error on an empty text. *)
Theorem google_run_is_row_of_attempts (Data : Type)
    (jsonUnmarshalOK : gostring -> bool) (call : Z -> Reply)
    (request : ChatRequest Data) (retryConfig : RetryConfig) :
  0 <= MaxRetries retryConfig ->
  exists n, (1 <= n)%nat /\ Z.of_nat n <= MaxRetries retryConfig + 1
    /\ RunOf retryConfig (googleAttempt jsonUnmarshalOK call request) 0 n
         (Google.ChatWithRetry Data jsonUnmarshalOK call request retryConfig).
Proof. apply Google_ChatWithRetry_RunOf. Qed.

Lemma google_run_is_row_of_attempts_witness :
  0 <= MaxRetries DefaultRetryConfig
  /\ exists n, (1 <= n)%nat /\ Z.of_nat n <= MaxRetries DefaultRetryConfig + 1
       /\ RunOf DefaultRetryConfig
            (googleAttempt JSON.valid
               (failThenAnswer 2 (str "rate limit") (str "Hello!"))
               sampleRequest) 0 n
            (Google.ChatWithRetry unit JSON.valid
               (failThenAnswer 2 (str "rate limit") (str "Hello!"))
               sampleRequest DefaultRetryConfig).
Proof.
  split; [vm_compute; discriminate|].
  apply google_run_is_row_of_attempts. vm_compute. discriminate.
Defined.

(** X3. With a negative [MaxRetries] the loop body never runs: both
    [ChatWithRetry] make no call and return the zero response with a nil
    error. *)
Theorem negative_budget_returns_nil_error (Data : Type)
    (jsonUnmarshalOK : gostring -> bool) (call : Z -> Reply)
    (request : ChatRequest Data) (retryConfig : RetryConfig) :
  MaxRetries retryConfig < 0 ->
  Ollama.ChatWithRetry Data jsonUnmarshalOK call request retryConfig
  = {| run_response := emptyResponse; run_error := None; run_events := [] |}
  /\ Google.ChatWithRetry Data jsonUnmarshalOK call request retryConfig
     = {| run_response := emptyResponse; run_error := None; run_events := [] |}.
Proof.
  intros Hneg. unfold Ollama.ChatWithRetry, Google.ChatWithRetry.
  replace (Z.to_nat (MaxRetries retryConfig + 1)) with O by lia.
  split; reflexivity.
Qed.

Lemma negative_budget_returns_nil_error_witness :
  Ollama.ChatWithRetry unit JSON.valid (fun _ => Success (str "Hello!")) sampleRequest
    {| MaxRetries := -1; BaseDelay := 2 * Second; MaxDelay := 30 * Second;
       BackoffFactor := 2%float |}
  = {| run_response := emptyResponse; run_error := None; run_events := [] |}
  /\ Google.ChatWithRetry unit JSON.valid (fun _ => Success (str "Hello!")) sampleRequest
       {| MaxRetries := -1; BaseDelay := 2 * Second; MaxDelay := 30 * Second;
          BackoffFactor := 2%float |}
     = {| run_response := emptyResponse; run_error := None; run_events := [] |}.
Proof.
  apply (negative_budget_returns_nil_error unit JSON.valid
           (fun _ => Success (str "Hello!")) sampleRequest
           {| MaxRetries := -1; BaseDelay := 2 * Second; MaxDelay := 30 * Second;
              BackoffFactor := 2%float |}).
  vm_compute. reflexivity.
Defined.

(** X4. Under a non-negative budget a run of either loop that ends on an
    error returns the zero response, never a partial one; the error is an
    [LLMError] of the operation [chat], and its [RetryCount] is the
    number of the last attempt: the run made [RetryCount + 1] calls. *)
Theorem failed_run_is_clean (Data : Type)
    (jsonUnmarshalOK : gostring -> bool) (call : Z -> Reply)
    (request : ChatRequest Data) (retryConfig : RetryConfig) :
  0 <= MaxRetries retryConfig ->
  FailsCleanly retryConfig
    (Ollama.ChatWithRetry Data jsonUnmarshalOK call request retryConfig)
  /\ FailsCleanly retryConfig
       (Google.ChatWithRetry Data jsonUnmarshalOK call request retryConfig).
Proof.
  intros Hmax. split.
  - destruct (Ollama_ChatWithRetry_RunOf Data jsonUnmarshalOK call request
                retryConfig Hmax) as (n & Hn & Hle & Hrun).
    eapply RunOf_FailsCleanly; eauto. apply ollamaAttempt_error.
  - destruct (Google_ChatWithRetry_RunOf Data jsonUnmarshalOK call request
                retryConfig Hmax) as (n & Hn & Hle & Hrun).
    eapply RunOf_FailsCleanly; eauto. apply googleAttempt_error.
Qed.

Lemma failed_run_is_clean_witness :
  0 <= MaxRetries DefaultRetryConfig
  /\ FailsCleanly DefaultRetryConfig
       (Ollama.ChatWithRetry unit JSON.valid
          (fun _ => Failure (str "model not found")) sampleRequest DefaultRetryConfig)
  /\ FailsCleanly DefaultRetryConfig
       (Google.ChatWithRetry unit JSON.valid
          (fun _ => Failure (str "model not found")) sampleRequest DefaultRetryConfig).
Proof.
  split; [vm_compute; discriminate|].
  apply failed_run_is_clean. vm_compute. discriminate.
Defined.






(** X7. A target shape is asked for and no call ever returns a text in
    which JSON is found: both loops use up the budget, [MaxRetries + 1]
    calls, and return the JSON-parse error of the last attempt with the
    zero response, not the raw text. *)
Theorem json_never_found_exhausts (Data : Type)
    (jsonUnmarshalOK : gostring -> bool) (call : Z -> Reply)
    (request : ChatRequest Data) (retryConfig : RetryConfig)
    (targetType : gostring -> Data + gostring) (lastText : gostring) :
  0 <= MaxRetries retryConfig ->
  T request = Some targetType ->
  (forall j, 0 <= j <= MaxRetries retryConfig ->
     exists text, call j = Success text /\ text <> []
                  /\ extractJSON jsonUnmarshalOK text = []) ->
  call (MaxRetries retryConfig) = Success lastText ->
  Ollama.ChatWithRetry Data jsonUnmarshalOK call request retryConfig
  = {| run_response := emptyResponse;
       run_error := Some (LLMErr (noJSONError (MaxRetries retryConfig) lastText));
       run_events := eventsOfAttempts retryConfig 0
                       (S (Z.to_nat (MaxRetries retryConfig))) |}
  /\ Google.ChatWithRetry Data jsonUnmarshalOK call request retryConfig
     = {| run_response := emptyResponse;
          run_error := Some (LLMErr (noJSONError (MaxRetries retryConfig) lastText));
          run_events := eventsOfAttempts retryConfig 0
                          (S (Z.to_nat (MaxRetries retryConfig))) |}.
Proof.
  intros Hmax HT Hall Hlast.
  assert (HO : forall j, 0 <= j <= MaxRetries retryConfig ->
            exists text, call j = Success text
              /\ ollamaAttempt jsonUnmarshalOK call request j = inl (noJSONError j text)).
  { intros j Hj. destruct (Hall j Hj) as (text & Hc & _ & He). exists text.
    split; [exact Hc|]. unfold ollamaAttempt, structuredOutcome.
    rewrite Hc, HT. cbv zeta. rewrite He. reflexivity. }
  assert (HG : forall j, 0 <= j <= MaxRetries retryConfig ->
            exists text, call j = Success text
              /\ googleAttempt jsonUnmarshalOK call request j = inl (noJSONError j text)).
  { intros j Hj. destruct (Hall j Hj) as (text & Hc & Hne & He). exists text.
    split; [exact Hc|]. unfold googleAttempt, structuredOutcome.
    rewrite Hc, HT. destruct text; [congruence|]. cbn [nonempty negb].
    cbv zeta. rewrite He. reflexivity. }
  split.
  - unfold Ollama.ChatWithRetry.
    rewrite (att_decided Data retryConfig (ollamaAttempt jsonUnmarshalOK call request)
               _ (Ollama_att_O _ _ _ _ _) (Ollama_att_S _ _ _ _ _)
               (Z.to_nat (MaxRetries retryConfig))).
    + rewrite Z2Nat.id by lia.
      destruct (HO (MaxRetries retryConfig)) as (text & Hc & Hout); [lia|].
      rewrite Hout. rewrite Hc in Hlast. injection Hlast as ->. reflexivity.
    + lia.
    + intros j Hj. destruct (HO j) as (text & _ & Hout); [lia|]. eauto.
    + left. lia.
  - unfold Google.ChatWithRetry.
    rewrite (att_decided Data retryConfig (googleAttempt jsonUnmarshalOK call request)
               _ (Google_att_O _ _ _ _ _) (Google_att_S _ _ _ _ _)
               (Z.to_nat (MaxRetries retryConfig))).
    + rewrite Z2Nat.id by lia.
      destruct (HG (MaxRetries retryConfig)) as (text & Hc & Hout); [lia|].
      rewrite Hout. rewrite Hc in Hlast. injection Hlast as ->. reflexivity.
    + lia.
    + intros j Hj. destruct (HG j) as (text & _ & Hout); [lia|]. eauto.
    + left. lia.
Qed.

Lemma json_never_found_exhausts_witness :
  Ollama.ChatWithRetry unit JSON.valid (fun _ => Success (str "I cannot do that."))
    {| SystemPrompt := []; Messages := []; T := Some anyTarget |} DefaultRetryConfig
  = {| run_response := emptyResponse;
       run_error := Some (LLMErr (noJSONError 3 (str "I cannot do that.")));
       run_events := eventsOfAttempts DefaultRetryConfig 0 4 |}
  /\ Google.ChatWithRetry unit JSON.valid (fun _ => Success (str "I cannot do that."))
       {| SystemPrompt := []; Messages := []; T := Some anyTarget |} DefaultRetryConfig
     = {| run_response := emptyResponse;
          run_error := Some (LLMErr (noJSONError 3 (str "I cannot do that.")));
          run_events := eventsOfAttempts DefaultRetryConfig 0 4 |}.
Proof.
  apply (json_never_found_exhausts unit JSON.valid
           (fun _ => Success (str "I cannot do that."))
           {| SystemPrompt := []; Messages := []; T := Some anyTarget |}
           DefaultRetryConfig anyTarget (str "I cannot do that."));
    [vm_compute; discriminate | reflexivity | | reflexivity].
  intros j _. exists (str "I cannot do that.").
  split; [reflexivity|]. split; [discriminate | vm_compute; reflexivity].
Defined.

Lemma Ollama_classifyError_Retryable (errStr : gostring) (a a' : Z) (op op' : gostring) :
  Retryable (Ollama.classifyError errStr a op)
  = Retryable (Ollama.classifyError errStr a' op').
Proof.
  unfold Ollama.classifyError.
  repeat match goal with
         | |- context [if ?c then _ else _] => destruct c
         end; reflexivity.
Qed.

Lemma Google_classifyError_Retryable (errStr : gostring) (a a' : Z) (op op' : gostring) :
  Retryable (Google.classifyError errStr a op)
  = Retryable (Google.classifyError errStr a' op').
Proof.
  unfold Google.classifyError.
  repeat match goal with
         | |- context [if ?c then _ else _] => destruct c
         end; reflexivity.
Qed.

(** X8. The first [k] calls fail with a text that the classifier takes
    for retryable, [k] within the budget, and the next call answers a
    non-empty text, no target shape asked for: the run returns that text
    after [k + 1] calls, with the backoff sleeps before the calls
    1 to [k]. *)
Theorem retried_failures_then_answer (Data : Type)
    (jsonUnmarshalOK : gostring -> bool) (request : ChatRequest Data)
    (retryConfig : RetryConfig) (k : Z) (errStr text : gostring) :
  0 <= k <= MaxRetries retryConfig ->
  T request = None -> text <> [] ->
  (Retryable (Ollama.classifyError errStr 0 (str "chat")) = true ->
   Ollama.ChatWithRetry Data jsonUnmarshalOK (failThenAnswer k errStr text)
     request retryConfig
   = {| run_response := {| resp_Message := text; resp_Data := None |};
        run_error := None;
        run_events := eventsOfAttempts retryConfig 0 (S (Z.to_nat k)) |})
  /\ (Retryable (Google.classifyError errStr 0 (str "chat")) = true ->
      Google.ChatWithRetry Data jsonUnmarshalOK (failThenAnswer k errStr text)
        request retryConfig
      = {| run_response := {| resp_Message := text; resp_Data := None |};
           run_error := None;
           run_events := eventsOfAttempts retryConfig 0 (S (Z.to_nat k)) |}).
Proof.
  intros Hk HT Hne.
  assert (Hearly : forall j, 0 <= j < Z.of_nat (Z.to_nat k) ->
            failThenAnswer k errStr text j = Failure errStr).
  { intros j Hj. unfold failThenAnswer.
    replace (j <? k) with true by (symmetry; apply Z.ltb_lt; lia). reflexivity. }
  assert (Hat : failThenAnswer k errStr text (Z.of_nat (Z.to_nat k)) = Success text).
  { unfold failThenAnswer.
    replace (Z.of_nat (Z.to_nat k) <? k) with false
      by (symmetry; apply Z.ltb_ge; lia). reflexivity. }
  split; intros Hretry.
  - unfold Ollama.ChatWithRetry.
    rewrite (att_decided Data retryConfig
               (ollamaAttempt jsonUnmarshalOK (failThenAnswer k errStr text) request)
               _ (Ollama_att_O _ _ _ _ _) (Ollama_att_S _ _ _ _ _) (Z.to_nat k)).
    + unfold ollamaAttempt, structuredOutcome. rewrite Hat, HT. reflexivity.
    + lia.
    + intros j Hj. unfold ollamaAttempt. rewrite (Hearly j Hj).
      eexists. split; [reflexivity|].
      rewrite (Ollama_classifyError_Retryable errStr j 0 _ (str "chat")). exact Hretry.
    + right. left. unfold ollamaAttempt, structuredOutcome. rewrite Hat, HT. eauto.
  - unfold Google.ChatWithRetry.
    assert (Hout : googleAttempt jsonUnmarshalOK (failThenAnswer k errStr text)
                     request (Z.of_nat (Z.to_nat k))
                   = inr {| resp_Message := text; resp_Data := None |}).
    { unfold googleAttempt, structuredOutcome. rewrite Hat, HT.
      destruct text; [congruence | reflexivity]. }
    rewrite (att_decided Data retryConfig
               (googleAttempt jsonUnmarshalOK (failThenAnswer k errStr text) request)
               _ (Google_att_O _ _ _ _ _) (Google_att_S _ _ _ _ _) (Z.to_nat k)).
    + rewrite Hout. reflexivity.
    + lia.
    + intros j Hj. unfold googleAttempt. rewrite (Hearly j Hj).
      eexists. split; [reflexivity|].
      rewrite (Google_classifyError_Retryable errStr j 0 _ (str "chat")). exact Hretry.
    + right. left. eauto.
Qed.

Lemma retried_failures_then_answer_witness :
  Ollama.ChatWithRetry unit JSON.valid
    (failThenAnswer 2 (str "connection refused") (str "Hello!"))
    sampleRequest DefaultRetryConfig
  = {| run_response := {| resp_Message := str "Hello!"; resp_Data := None |};
       run_error := None;
       run_events := [Call 0; Sleep (Some (2 * Second)); Call 1;
                      Sleep (Some (4 * Second)); Call 2] |}.
Proof.
  refine (proj1 (retried_failures_then_answer unit JSON.valid sampleRequest
                   DefaultRetryConfig 2 (str "connection refused") (str "Hello!")
                   _ _ _) _);
    [vm_compute; split; discriminate | reflexivity | discriminate
    | vm_compute; reflexivity].
Defined.

(** X9. Every error that a classifier builds carries the operation, the
    attempt and the text it was given, and its retryable flag follows
    from its type: false for model-not-available and for
    invalid-configuration, true for the other types; the Ollama
    classifier builds four types only. *)
Theorem classified_error_invariants (errStr : gostring) (attempt : Z)
    (operation : gostring) :
  (Retryable (Ollama.classifyError errStr attempt operation)
   = typeRetryable (err_Type (Ollama.classifyError errStr attempt operation))
   /\ In (err_Type (Ollama.classifyError errStr attempt operation))
        [ErrConnectionFailed; ErrTimeout; ErrModelNotAvailable; ErrOperationFailed]
   /\ Operation (Ollama.classifyError errStr attempt operation) = operation
   /\ RetryCount (Ollama.classifyError errStr attempt operation) = attempt
   /\ Cause (Ollama.classifyError errStr attempt operation) = Some errStr)
  /\ (Retryable (Google.classifyError errStr attempt operation)
      = typeRetryable (err_Type (Google.classifyError errStr attempt operation))
      /\ In (err_Type (Google.classifyError errStr attempt operation))
           [ErrConnectionFailed; ErrTimeout; ErrInvalidConfig; ErrRateLimitExceeded;
            ErrModelNotAvailable; ErrOperationFailed]
      /\ Operation (Google.classifyError errStr attempt operation) = operation
      /\ RetryCount (Google.classifyError errStr attempt operation) = attempt
      /\ Cause (Google.classifyError errStr attempt operation) = Some errStr).
Proof.
  unfold Ollama.classifyError, Google.classifyError.
  repeat match goal with
         | |- context [if ?c then _ else _] => destruct c
         end; cbn; intuition.
Qed.

(** X10. On a text that holds none of the markers that only the Google
    classifier knows, the two classifiers build errors of the same type
    and the same retryability. *)
Theorem classifiers_agree_outside_google_markers (errStr : gostring)
    (attempt : Z) (operation : gostring) :
  googleOnlyText errStr = false ->
  err_Type (Ollama.classifyError errStr attempt operation)
  = err_Type (Google.classifyError errStr attempt operation)
  /\ Retryable (Ollama.classifyError errStr attempt operation)
     = Retryable (Google.classifyError errStr attempt operation).
Proof.
  unfold googleOnlyText, authText. intros H.
  repeat match goal with
         | Ho : _ || _ = false |- _ => apply orb_false_iff in Ho as [? ?]
         end.
  unfold Ollama.classifyError, Google.classifyError.
  repeat match goal with Hc : Contains _ _ = false |- _ => rewrite Hc; clear Hc end.
  repeat match goal with
         | |- context [Contains ?s ?m] => destruct (Contains s m)
         end; split; reflexivity.
Qed.

Lemma classifiers_agree_outside_google_markers_witness :
  googleOnlyText (str "pull model: model not found") = false
  /\ err_Type (Ollama.classifyError (str "pull model: model not found") 0 (str "chat"))
     = err_Type (Google.classifyError (str "pull model: model not found") 0 (str "chat"))
  /\ Retryable (Ollama.classifyError (str "pull model: model not found") 0 (str "chat"))
     = Retryable (Google.classifyError (str "pull model: model not found") 0 (str "chat")).
Proof.
  split; [vm_compute; reflexivity|].
  apply classifiers_agree_outside_google_markers. vm_compute. reflexivity.
Defined.

(** ** More on the repair pass and the extractors *)

Lemma fix_iter_written (inString escaped : bool) (char : rune) :
  fst (fix_iter inString escaped char) = [char]
  \/ (inString = true /\ isControl char = true
      /\ escapeOf char = Some (fst (fix_iter inString escaped char))).
Proof.
  unfold fix_iter, escapeOf, isControl.
  destruct (char =? BACKSLASH) eqn:Hb, (char =? QUOTE) eqn:Hq,
    (char =? NEWLINE) eqn:Hn, (char =? CARRIAGE) eqn:Hc, (char =? TAB) eqn:Ht,
    inString, escaped; cbn; auto.
Qed.

Lemma fix_loop_Repaired (s : gostring) (inString escaped : bool) :
  Repaired s (fst (fix_loop s [] inString escaped)).
Proof.
  revert inString escaped. induction s as [|char s IH]; intros inString escaped.
  - constructor.
  - rewrite fix_loop_cons.
    destruct (fix_iter_written inString escaped char) as [Hw | (_ & _ & Hw)];
      destruct (fix_iter inString escaped char) as [written [i' e']];
      cbn [fst snd] in *.
    + subst written. apply Repaired_keep, IH.
    + apply Repaired_escape; [exact Hw | apply IH].
Qed.

(** X11. The repair pass changes nothing but line feeds, carriage
    returns and tabs: its output is its input with some of these
    replaced by backslash-n, backslash-r, backslash-t, every other
    character kept in place. *)
Theorem repair_only_escapes_controls (s : gostring) :
  Repaired s (fixUnescapedNewlines s).
Proof. apply fix_loop_Repaired. Qed.

Lemma fix_loop_outside (s : gostring) (escaped : bool) :
  Forall (fun char => char <> QUOTE) s ->
  fst (fix_loop s [] false escaped) = s.
Proof.
  revert escaped. induction s as [|char s IH]; intros escaped Hall; [reflexivity|].
  inversion Hall as [|? ? Hq Hrest]; subst.
  rewrite fix_loop_cons.
  assert (Hit : exists e', fix_iter false escaped char = ([char], (false, e'))).
  { unfold fix_iter. apply Z.eqb_neq in Hq. rewrite Hq.
    destruct (char =? BACKSLASH), escaped; cbn;
      rewrite ?andb_false_r; cbn; eauto. }
  destruct Hit as [e' Hit]. rewrite Hit. cbn [fst]. rewrite (IH e' Hrest). reflexivity.
Qed.

Lemma fix_loop_no_control (s : gostring) (inString escaped : bool) :
  Forall (fun char => isControl char = false) s ->
  fst (fix_loop s [] inString escaped) = s.
Proof.
  revert inString escaped.
  induction s as [|char s IH]; intros inString escaped Hall; [reflexivity|].
  inversion Hall as [|? ? Hc Hrest]; subst.
  rewrite fix_loop_cons.
  destruct (fix_iter_written inString escaped char) as [Hw | (_ & Hctl & _)];
    [|congruence].
  destruct (fix_iter inString escaped char) as [written [i' e']].
  cbn [fst snd] in *. subst written. rewrite (IH i' e' Hrest). reflexivity.
Qed.

(** X12. A text without any double quote, and a text without any line
    feed, carriage return or tab, come back from the repair pass
    unchanged: outside quoted strings nothing is rewritten. *)
Theorem repair_leaves_plain_text (s : gostring) :
  Forall (fun char => char <> QUOTE) s
  \/ Forall (fun char => isControl char = false) s ->
  fixUnescapedNewlines s = s.
Proof.
  unfold fixUnescapedNewlines.
  intros [H | H]; [apply fix_loop_outside | apply fix_loop_no_control]; exact H.
Qed.

Lemma repair_leaves_plain_text_witness :
  fixUnescapedNewlines (str "line one" ++ [NEWLINE] ++ str "line two")
  = str "line one" ++ [NEWLINE] ++ str "line two".
Proof.
  apply repair_leaves_plain_text. left.
  repeat (constructor; [discriminate|]). constructor.
Defined.

Section CandidateShape.

Variable jsonUnmarshalOK : gostring -> bool.
Variables (response : gostring) (openChar closeChar : rune).

Lemma slice_span (d1 d2 rest : gostring) :
  slice (d1 ++ openChar :: d2 ++ closeChar :: rest) (len d1)
    (len (d1 ++ openChar :: d2) + 1)
  = openChar :: d2 ++ [closeChar].
Proof.
  unfold slice, len. rewrite Nat2Z.id, drop_app_length.
  rewrite length_app. cbn [List.length].
  replace (Z.to_nat (Z.of_nat (List.length d1 + S (List.length d2)) + 1
                     - Z.of_nat (List.length d1)))
    with (List.length (openChar :: d2 ++ [closeChar]))
    by (cbn [List.length]; rewrite length_app; cbn [List.length]; lia).
  change (openChar :: d2 ++ closeChar :: rest)
    with ((openChar :: d2) ++ [closeChar] ++ rest).
  rewrite app_assoc. apply take_app_length.
Qed.

Lemma bound_iter_shape (done rest : gostring) (char : rune) (st : BoundState) :
  response = done ++ char :: rest ->
  startOK openChar done st ->
  match bound_iter jsonUnmarshalOK response openChar closeChar (len done) char st with
  | Next st' => startOK openChar (done ++ [char]) st'
  | Return candidate => exists mid, candidate = openChar :: mid ++ [closeChar]
  end.
Proof.
  intros Hresp Hstart.
  assert (Hkeep : startOK openChar done st -> forall st',
            b_start st' = b_start st -> startOK openChar (done ++ [char]) st').
  { intros [Hs | (d1 & d2 & Hd & Hs)] st' Heq; [left; congruence|].
    right. exists d1, (d2 ++ [char]). split; [|congruence].
    rewrite Hd, <- app_assoc. reflexivity. }
  unfold bound_iter.
  destruct ((char =? BACKSLASH) && negb (b_escaped st)); [apply Hkeep; auto|].
  cbv zeta.
  destruct (negb _); [|apply Hkeep; auto].
  destruct (char =? openChar) eqn:Ho.
  - apply Z.eqb_eq in Ho. subst char.
    destruct (b_start st =? -1) eqn:Hs1.
    + right. exists done, []. split; [reflexivity|]. reflexivity.
    + apply Hkeep; auto.
  - destruct (char =? closeChar) eqn:Hc; [|apply Hkeep; auto].
    apply Z.eqb_eq in Hc. subst char.
    destruct ((b_count st - 1 =? 0) && negb (b_start st =? -1)) eqn:Hz;
      [|apply Hkeep; auto].
    apply andb_true_iff in Hz as [_ Hs]. apply negb_true_iff, Z.eqb_neq in Hs.
    destruct Hstart as [Hs1 | (d1 & d2 & Hd & Hs1)]; [congruence|].
    destruct (isValidJSON _ _); [|left; reflexivity].
    exists d2. rewrite Hresp, Hd, Hs1, <- app_assoc.
    cbn [app]. apply slice_span.
Qed.

Lemma bound_loop_shape (chars done : gostring) (st : BoundState)
    (candidate : gostring) :
  response = done ++ chars ->
  startOK openChar done st ->
  bound_loop jsonUnmarshalOK response openChar closeChar chars (len done) st
  = Return candidate ->
  exists mid, candidate = openChar :: mid ++ [closeChar].
Proof.
  revert done st. induction chars as [|char rest IH]; intros done st Hresp Hstart;
    [discriminate|].
  cbn [bound_loop].
  pose proof (bound_iter_shape done rest char st Hresp Hstart) as Hit.
  destruct (bound_iter _ _ _ _ _ _ _) as [st'|c'].
  - replace (len done + 1) with (len (done ++ [char]))
      by (unfold len; rewrite length_app; cbn [List.length]; lia).
    apply IH; [rewrite <- app_assoc; exact Hresp | exact Hit].
  - intros [= <-]. exact Hit.
Qed.

End CandidateShape.

(** X13. A non-empty candidate returned by [extractJSONBoundaries] starts
    with the opening character and ends with the closing character it
    was called with, and a response that holds no closing character
    yields no candidate. *)
Theorem boundary_candidate_is_delimited (jsonUnmarshalOK : gostring -> bool)
    (response : gostring) (openChar closeChar : rune) :
  (extractJSONBoundaries jsonUnmarshalOK response openChar closeChar <> [] ->
   exists mid,
     extractJSONBoundaries jsonUnmarshalOK response openChar closeChar
     = openChar :: mid ++ [closeChar])
  /\ (~ In closeChar response ->
      extractJSONBoundaries jsonUnmarshalOK response openChar closeChar = []).
Proof.
  assert (Hshape : extractJSONBoundaries jsonUnmarshalOK response openChar closeChar <> [] ->
            exists mid,
              extractJSONBoundaries jsonUnmarshalOK response openChar closeChar
              = openChar :: mid ++ [closeChar]).
  { unfold extractJSONBoundaries.
    destruct (bound_loop _ _ _ _ _ _ _) as [st|candidate] eqn:Hl; [congruence|].
    intros _.
    apply (bound_loop_shape jsonUnmarshalOK response openChar closeChar
             response [] bound_init candidate); [reflexivity | left; reflexivity | exact Hl]. }
  split; [exact Hshape|].
  intros Hnot.
  destruct (extractJSONBoundaries jsonUnmarshalOK response openChar closeChar)
    as [|c0 cand] eqn:He; [reflexivity|].
  exfalso. destruct Hshape as [mid Hmid]; [discriminate|].
  assert (Hsub : Substring (c0 :: cand) response).
  { rewrite <- He. apply extractJSONBoundaries_sound. rewrite He. reflexivity. }
  destruct Hsub as (pre & post & Hresp). apply Hnot.
  rewrite Hresp, Hmid. apply in_or_app. right. apply in_or_app. left.
  right. apply in_or_app. right. left. reflexivity.
Qed.

Lemma boundary_candidate_is_delimited_witness :
  exists mid,
    extractJSONBoundaries JSON.valid (jstr "ok {'a':{'b':2}} done") LBRACE RBRACE
    = LBRACE :: mid ++ [RBRACE].
Proof.
  apply (proj1 (boundary_candidate_is_delimited JSON.valid
                  (jstr "ok {'a':{'b':2}} done") LBRACE RBRACE)).
  vm_compute. discriminate.
Defined.

Lemma Index_from_least (s substr pre post : gostring) (i : Z) :
  s = pre ++ substr ++ post ->
  i <= Index_from s substr i <= i + len pre.
Proof.
  revert s i. induction pre as [|c pre IH]; intros s i Hs.
  - assert (Hp : HasPrefix s substr = true) by (apply HasPrefix_app; eauto).
    destruct s; simpl; rewrite Hp; unfold len; simpl; lia.
  - subst s. cbn [app Index_from].
    destruct (HasPrefix (c :: pre ++ substr ++ post) substr).
    + unfold len. lia.
    + specialize (IH (pre ++ substr ++ post) (i + 1) eq_refl).
      unfold len in *. cbn [List.length]. lia.
Qed.

Lemma Index_split (s substr : gostring) :
  Index s substr <> -1 ->
  exists pre post,
    s = pre ++ substr ++ post /\ Index s substr = len pre
    /\ forall p q, s = p ++ substr ++ q -> len pre <= len p.
Proof.
  intros Hne. unfold Index in *.
  destruct (Index_from_found s substr 0 Hne) as (pre & post & Hs & Hidx); [lia|].
  exists pre, post. split; [exact Hs|]. split; [lia|].
  intros p q Hpq. pose proof (Index_from_least s substr p q 0 Hpq). lia.
Qed.

(** X14. A non-empty result of [extractFromMarkdown] is the trimmed text
    between the first occurrence of the marker and the first closing
    fence after it, and it has passed [isValidJSON]; when the marker does
    not occur in the response the result is empty. *)
Theorem markdown_candidate_is_first_block (jsonUnmarshalOK : gostring -> bool)
    (response marker : gostring) :
  (extractFromMarkdown jsonUnmarshalOK response marker <> [] ->
   exists pre body post,
     response = pre ++ marker ++ body ++ MD_FENCE ++ post
     /\ extractFromMarkdown jsonUnmarshalOK response marker = TrimSpace body
     /\ isValidJSON jsonUnmarshalOK (TrimSpace body) = true
     /\ (forall p q, response = p ++ marker ++ q -> len pre <= len p)
     /\ (forall p q, body ++ MD_FENCE ++ post = p ++ MD_FENCE ++ q ->
           len body <= len p))
  /\ (~ Substring marker response ->
      extractFromMarkdown jsonUnmarshalOK response marker = []).
Proof.
  unfold extractFromMarkdown. split.
  - destruct (Index response marker =? -1) eqn:Hi; [congruence|].
    apply Z.eqb_neq in Hi.
    destruct (Index_split response marker Hi) as (pre & rest & Hresp & Hidx & Hfirst).
    rewrite Hidx.
    assert (Hcontent : skipn (Z.to_nat (len pre + len marker)) response = rest).
    { rewrite Hresp, app_assoc. unfold len.
      replace (Z.to_nat (Z.of_nat (List.length pre) + Z.of_nat (List.length marker)))
        with (List.length (pre ++ marker)) by (rewrite length_app; lia).
      apply drop_app_length. }
    rewrite Hcontent.
    destruct (Index rest MD_FENCE =? -1) eqn:Hj; [congruence|].
    apply Z.eqb_neq in Hj.
    destruct (Index_split rest MD_FENCE Hj) as (body & post & Hrest & Hidx2 & Hfirst2).
    rewrite Hidx2.
    replace (Z.to_nat (len body)) with (List.length body) by (unfold len; lia).
    assert (Hbody : firstn (List.length body) rest = body)
      by (rewrite Hrest; apply take_app_length).
    rewrite Hbody.
    destruct (isValidJSON jsonUnmarshalOK (TrimSpace body)) eqn:Hv; [|congruence].
    intros _. exists pre, body, post.
    split; [rewrite Hresp, Hrest; reflexivity|].
    split; [reflexivity|]. split; [exact Hv|].
    split; [exact Hfirst|]. rewrite <- Hrest. exact Hfirst2.
  - intros Hno. destruct (Index response marker =? -1) eqn:Hi; [reflexivity|].
    exfalso. apply Hno. apply Contains_Substring. unfold Contains.
    apply Z.eqb_neq in Hi. apply Z.leb_le.
    destruct (Index_from_range response marker 0); unfold Index in *; lia.
Qed.

Lemma markdown_candidate_is_first_block_witness :
  exists pre body post,
    (str "Result: " ++ MD_JSON ++ [NEWLINE] ++ jstr "{'a':1}" ++ [NEWLINE] ++ MD_FENCE
     ++ str " and " ++ MD_FENCE ++ str "x" ++ MD_FENCE)
    = pre ++ MD_JSON ++ body ++ MD_FENCE ++ post
    /\ extractFromMarkdown JSON.valid
         (str "Result: " ++ MD_JSON ++ [NEWLINE] ++ jstr "{'a':1}" ++ [NEWLINE]
          ++ MD_FENCE ++ str " and " ++ MD_FENCE ++ str "x" ++ MD_FENCE) MD_JSON
       = TrimSpace body.
Proof.
  destruct (proj1 (markdown_candidate_is_first_block JSON.valid
                     (str "Result: " ++ MD_JSON ++ [NEWLINE] ++ jstr "{'a':1}"
                      ++ [NEWLINE] ++ MD_FENCE ++ str " and " ++ MD_FENCE
                      ++ str "x" ++ MD_FENCE) MD_JSON))
    as (pre & body & post & H1 & H2 & _).
  { vm_compute. discriminate. }
  exists pre, body, post. split; assumption.
Defined.

(** X15. At the end of the text the cleanup strategy cuts a trailing
    fence and nothing else: the brace and the bracket of its suffix list
    never apply, so a text that does not end with a fence keeps its
    end. *)
Theorem cleanup_cuts_only_a_trailing_fence (s : gostring) :
  removeSuffix suffixes s
  = if HasSuffix s MD_FENCE
    then TrimSpace (firstn (List.length s - List.length MD_FENCE) s)
    else s.
Proof.
  unfold suffixes. cbn [removeSuffix].
  replace (negb (runes_eqb MD_FENCE (str "}")) && negb (runes_eqb MD_FENCE (str "]")))
    with true by reflexivity.
  replace (negb (runes_eqb (str "}") (str "}"))) with false by reflexivity.
  replace (negb (runes_eqb (str "]") (str "]"))) with false by reflexivity.
  rewrite <- andb_assoc.
  replace (negb (runes_eqb MD_FENCE (str "}")) && negb (runes_eqb MD_FENCE (str "]")))
    with true by reflexivity.
  rewrite !andb_true_r, !andb_false_r. cbn [andb].
  destruct (HasSuffix s MD_FENCE); reflexivity.
Qed.

(** ** More on the factory *)

Section FactoryMore.

Import Factory.
Variable Provider : Type.

(** X16. A provider that [CreateProvider] has created is in the cache:
    the next [CreateProvider] for that name returns the same instance,
    whatever configuration map it is given, and runs no constructor. *)
Theorem created_provider_is_cached (f : LLMFactory Provider) (name : gostring)
    (cfg1 cfg2 : gmap gostring ConfigValue) (provider : Provider) :
  result (CreateProvider Provider f name cfg1) = inl provider ->
  CreateProvider Provider (factory (CreateProvider Provider f name cfg1)) name cfg2
  = {| result := inl provider;
       factory := factory (CreateProvider Provider f name cfg1);
       constructed := [] |}.
Proof.
  unfold CreateProvider, createProviderUnsafe, Create.
  destruct (providerCache f !! name) as [cached|] eqn:Hhit.
  - cbn. intros [= ->]. rewrite Hhit. reflexivity.
  - destruct (providers (registry f) !! name) as [constructor|];
      [|cbn; discriminate].
    destruct (constructor cfg1) as [created|err]; [|cbn; discriminate].
    cbn. intros [= ->]. rewrite lookup_insert_eq. reflexivity.
Qed.

(** X17. A [CreateProvider] that returns an error leaves the factory as
    it was, nothing is cached; the error is a wrapped one, which
    [IsRetryable] takes for non-retryable whatever the constructor
    returned; for a name that is neither cached nor registered no
    constructor runs. *)
Theorem failed_creation_changes_nothing (f : LLMFactory Provider) (name : gostring)
    (cfg : gmap gostring ConfigValue) (err : error) :
  result (CreateProvider Provider f name cfg) = inr err ->
  factory (CreateProvider Provider f name cfg) = f
  /\ IsRetryable err = false
  /\ (providers (registry f) !! name = None ->
      constructed (CreateProvider Provider f name cfg) = []).
Proof.
  unfold CreateProvider, createProviderUnsafe, Create.
  destruct (providerCache f !! name) as [cached|]; [cbn; discriminate|].
  destruct (providers (registry f) !! name) as [constructor|].
  - destruct (constructor cfg) as [created|e]; [cbn; discriminate|].
    cbn. intros [= <-]. repeat split. discriminate.
  - cbn. intros [= <-]. repeat split.
Qed.

(** X18. [CreateProvider] touches nothing but the cache entry of the
    name it is called with: registry, configuration and model cache are
    kept, the entries of other names are kept, and an entry that exists
    is never replaced. *)
Theorem CreateProvider_frame (f : LLMFactory Provider) (name : gostring)
    (cfg : gmap gostring ConfigValue) :
  registry (factory (CreateProvider Provider f name cfg)) = registry f
  /\ config (factory (CreateProvider Provider f name cfg)) = config f
  /\ modelCache (factory (CreateProvider Provider f name cfg)) = modelCache f
  /\ (forall other, other <> name ->
        providerCache (factory (CreateProvider Provider f name cfg)) !! other
        = providerCache f !! other)
  /\ (forall cached, providerCache f !! name = Some cached ->
        providerCache (factory (CreateProvider Provider f name cfg)) !! name
        = Some cached).
Proof.
  unfold CreateProvider, createProviderUnsafe, Create.
  destruct (providerCache f !! name) as [cached|] eqn:Hhit.
  - cbn. repeat split; auto. intros cached' [= <-]. exact Hhit.
  - destruct (providers (registry f) !! name) as [constructor|].
    + destruct (constructor cfg) as [created|e]; cbn; repeat split; auto;
        try (intros; congruence).
      intros other Hne. apply lookup_insert_ne. congruence.
    + cbn. repeat split; auto. intros; congruence.
Qed.

(** X19. In the map that [CreateProviderFromConfig] hands to the
    constructor an extra setting wins over the standard key of the same
    name, as a string; the standard keys that no extra setting hides
    hold the fields of the provider configuration. *)
Theorem configMap_lookup (pc : ProviderConfig) :
  (forall key value, ExtraSettings pc !! key = Some value ->
     configMap pc !! key = Some (VString value))
  /\ (ExtraSettings pc !! str "host" = None ->
      configMap pc !! str "host" = Some (VString (Host pc)))
  /\ (ExtraSettings pc !! str "api_key" = None ->
      configMap pc !! str "api_key" = Some (VString (APIKey pc)))
  /\ (ExtraSettings pc !! str "default_model" = None ->
      configMap pc !! str "default_model" = Some (VString (DefaultModel pc)))
  /\ (ExtraSettings pc !! str "timeout" = None ->
      configMap pc !! str "timeout" = Some (VInt (Timeout pc)))
  /\ (ExtraSettings pc !! str "retry_attempts" = None ->
      configMap pc !! str "retry_attempts" = Some (VInt (RetryAttempts pc)))
  /\ (ExtraSettings pc !! str "rate_limit" = None ->
      configMap pc !! str "rate_limit" = Some (VInt (RateLimit pc))).
Proof.
  unfold configMap. split.
  - intros key value H. apply lookup_union_Some_l. rewrite lookup_fmap, H. reflexivity.
  - repeat split; intros H;
      (rewrite lookup_union_r by (rewrite lookup_fmap, H; reflexivity));
      repeat (rewrite lookup_insert_ne by discriminate);
      apply lookup_insert_eq.
Qed.

Lemma nonempty_false (s : gostring) : nonempty s = false <-> s = [].
Proof. destruct s; split; intros H; try reflexivity; discriminate. Qed.

(** X20. [LoadConfig] accepts exactly the configurations whose default
    provider is named and is among the configured providers; it stores
    such a configuration and empties both caches, and it checks neither
    model, timeout nor retry attempts.  Any other configuration is
    refused with a non-retryable error and the factory, caches included,
    stays as it was. *)
Theorem LoadConfig_accepts_iff (f : LLMFactory Provider) (c : FactoryConfig) :
  (DefaultProvider c <> [] /\ is_Some (Providers c !! DefaultProvider c) ->
   LoadConfig Provider f c
   = (None, {| registry := registry f; config := c;
               providerCache := ∅; modelCache := ∅ |}))
  /\ (~ (DefaultProvider c <> [] /\ is_Some (Providers c !! DefaultProvider c)) ->
      exists err, LoadConfig Provider f c = (Some err, f) /\ IsRetryable err = false).
Proof.
  unfold LoadConfig. split.
  - intros [Hname [pc Hpc]].
    destruct (nonempty (DefaultProvider c)) eqn:Hne;
      [|apply nonempty_false in Hne; congruence].
    cbn [negb].
    destruct (Nat.eqb (size (Providers c)) 0) eqn:Hsize.
    + apply Nat.eqb_eq, map_size_empty_inv in Hsize.
      rewrite Hsize, lookup_empty in Hpc. discriminate.
    + rewrite Hpc. reflexivity.
  - intros Hnot.
    destruct (nonempty (DefaultProvider c)) eqn:Hne; cbn [negb];
      [|eexists; split; reflexivity].
    destruct (Nat.eqb (size (Providers c)) 0); [eexists; split; reflexivity|].
    destruct (Providers c !! DefaultProvider c) as [pc|] eqn:Hpc;
      [|eexists; split; reflexivity].
    exfalso. apply Hnot. split; [|eauto].
    intros Heq. rewrite Heq in Hne. discriminate.
Qed.

End FactoryMore.

Section FactoryMoreExamples.

Import Factory.

Lemma created_provider_is_cached_witness :
  CreateProvider gostring
    (factory (CreateProvider gostring (ClearProviderCache gostring sampleFactory)
                (str "ollama") {[ str "host" := VString (str "http://a:1") ]}))
    (str "ollama") {[ str "host" := VString (str "http://b:2") ]}
  = {| result := inl (str "http://a:1");
       factory := factory (CreateProvider gostring
                             (ClearProviderCache gostring sampleFactory)
                             (str "ollama") {[ str "host" := VString (str "http://a:1") ]});
       constructed := [] |}.
Proof.
  apply created_provider_is_cached. vm_compute. reflexivity.
Defined.

Lemma failed_creation_changes_nothing_witness :
  factory (CreateProvider gostring sampleFactory (str "google") ∅) = sampleFactory
  /\ constructed (CreateProvider gostring sampleFactory (str "google") ∅) = [].
Proof.
  destruct (failed_creation_changes_nothing gostring sampleFactory (str "google") ∅
              (WrapErr (str "failed to create provider " ++ str "google")
                 (LLMErr (NewLLMError ErrInvalidConfig
                            (str "provider not found: " ++ str "google")
                            (str "provider_creation") false 0 None))))
    as (Hf & _ & Hc).
  - vm_compute. reflexivity.
  - split; [exact Hf | apply Hc; vm_compute; reflexivity].
Defined.

Lemma CreateProvider_frame_witness :
  providerCache (factory (CreateProvider gostring sampleFactory (str "ollama") ∅))
  !! str "ollama"
  = Some (str "http://localhost:11434").
Proof.
  apply (CreateProvider_frame gostring sampleFactory (str "ollama") ∅).
  vm_compute. reflexivity.
Defined.

Lemma configMap_lookup_witness :
  configMap {| Host := str "http://localhost:11434"; APIKey := [];
               DefaultModel := str "llama3.1:latest"; Timeout := 60;
               RetryAttempts := 3; RateLimit := 0;
               ExtraSettings := {[ str "timeout" := str "90" ]} |}
  !! str "timeout"
  = Some (VString (str "90")).
Proof.
  apply (proj1 (configMap_lookup _)). vm_compute. reflexivity.
Defined.

Lemma LoadConfig_accepts_iff_witness :
  LoadConfig gostring sampleFactory
    {| DefaultProvider := str "ollama";
       Providers := {[ str "ollama" :=
                         {| Host := []; APIKey := []; DefaultModel := [];
                            Timeout := 0; RetryAttempts := -1; RateLimit := 0;
                            ExtraSettings := ∅ |} ]};
       ModelPreferences := ∅; FallbackProviders := [] |}
  = (None,
     {| registry := registry sampleFactory;
        config := {| DefaultProvider := str "ollama";
                     Providers := {[ str "ollama" :=
                                       {| Host := []; APIKey := []; DefaultModel := [];
                                          Timeout := 0; RetryAttempts := -1;
                                          RateLimit := 0; ExtraSettings := ∅ |} ]};
                     ModelPreferences := ∅; FallbackProviders := [] |};
        providerCache := ∅; modelCache := ∅ |}).
Proof.
  apply (proj1 (LoadConfig_accepts_iff gostring sampleFactory _)).
  split; [discriminate|]. eexists. vm_compute. reflexivity.
Defined.

End FactoryMoreExamples.

(** ** The default provider and the model listing *)

Section FactoryOpsMore.

Import Factory FactoryOps.
Variable Provider : Type.
Variable listModels : Provider -> list Model + error.

Lemma CreateProviderFromConfig_keeps (f : LLMFactory Provider) (name : gostring) :
  registry (factory (CreateProviderFromConfig Provider f name)) = registry f
  /\ config (factory (CreateProviderFromConfig Provider f name)) = config f
  /\ modelCache (factory (CreateProviderFromConfig Provider f name)) = modelCache f.
Proof.
  unfold CreateProviderFromConfig, CreateProvider, createProviderUnsafe, Create.
  destruct (Providers (config f) !! name) as [pc|]; [|cbn; auto].
  destruct (providerCache f !! name) as [cached|]; [cbn; auto|].
  destruct (providers (registry f) !! name) as [constructor|]; [|cbn; auto].
  destruct (constructor (configMap pc)) as [created|e]; cbn; auto.
Qed.

(** X21. [SetDefaultProvider] asks the registry only: a provider that is
    registered but has no configuration becomes the default, the caches
    are kept, and [GetDefaultProvider] then fails on the missing
    configuration without looking into the cache or running a
    constructor. *)
Theorem default_may_be_unconfigured (f : LLMFactory Provider) (name : gostring) :
  Exists Provider (registry f) name = true ->
  Providers (config f) !! name = None ->
  name <> [] ->
  exists f',
    SetDefaultProvider Provider f name = (None, f')
    /\ GetDefaultProviderName Provider f' = name
    /\ providerCache f' = providerCache f
    /\ modelCache f' = modelCache f
    /\ GetDefaultProvider Provider f'
       = {| result := inr (LLMErr (NewLLMError ErrInvalidConfig
                                     (str "no configuration found for provider: "
                                      ++ name)
                                     (str "provider_creation") false 0 None));
            factory := f'; constructed := [] |}.
Proof.
  intros Hreg Hcfg Hname. unfold SetDefaultProvider. rewrite Hreg. cbn [negb].
  eexists. split; [reflexivity|].
  unfold GetDefaultProviderName, GetDefaultProvider, CreateProviderFromConfig.
  cbn [config DefaultProvider Providers providerCache modelCache].
  repeat split.
  destruct (nonempty name) eqn:Hne; [|apply nonempty_false in Hne; congruence].
  cbn [negb]. rewrite Hcfg. reflexivity.
Qed.

(** X22. A list of models that [ListModels] has returned is in the model
    cache: asking again returns the same list with no provider created
    and none asked, also after [ClearProviderCache]. *)
Theorem listed_models_are_cached (f : LLMFactory Provider) (name : gostring)
    (models : list Model) :
  listed (ListModels Provider listModels f name) = inl models ->
  ListModels Provider listModels (after (ListModels Provider listModels f name)) name
  = {| listed := inl models;
       after := after (ListModels Provider listModels f name);
       built := []; asked := [] |}
  /\ ListModels Provider listModels
       (ClearProviderCache Provider (after (ListModels Provider listModels f name)))
       name
     = {| listed := inl models;
          after := ClearProviderCache Provider
                     (after (ListModels Provider listModels f name));
          built := []; asked := [] |}.
Proof.
  intros Hfirst.
  remember (ListModels Provider listModels f name) as first eqn:Hdef.
  unfold ListModels in Hdef.
  destruct (modelCache f !! name) as [cachedModels|] eqn:Hhit.
  - subst first. cbn in Hfirst. injection Hfirst as ->.
    unfold ListModels, ClearProviderCache.
    cbn [after modelCache]. rewrite Hhit. split; reflexivity.
  - destruct (result (CreateProviderFromConfig Provider f name)) as [provider|e];
      [|subst first; discriminate].
    destruct (listModels provider) as [answer|e]; [|subst first; discriminate].
    subst first. cbn in Hfirst. injection Hfirst as ->.
    unfold ListModels, ClearProviderCache.
    cbn [after modelCache]. rewrite lookup_insert_eq. split; reflexivity.
Qed.

(** X23. A [ListModels] that returns an error has stored no models and
    has changed neither registry nor configuration; its error is a
    wrapped one, non-retryable for [IsRetryable] whatever the provider
    or its constructor reported. *)
Theorem failed_listing_stores_nothing (f : LLMFactory Provider) (name : gostring)
    (err : error) :
  listed (ListModels Provider listModels f name) = inr err ->
  modelCache (after (ListModels Provider listModels f name)) = modelCache f
  /\ registry (after (ListModels Provider listModels f name)) = registry f
  /\ config (after (ListModels Provider listModels f name)) = config f
  /\ IsRetryable err = false.
Proof.
  destruct (CreateProviderFromConfig_keeps f name) as (Hr & Hc & Hm).
  unfold ListModels.
  destruct (modelCache f !! name) as [cachedModels|]; [cbn; discriminate|].
  destruct (result (CreateProviderFromConfig Provider f name)) as [provider|e].
  - destruct (listModels provider) as [answer|e]; [cbn; discriminate|].
    cbn. intros [= <-]. auto.
  - cbn. intros [= <-]. auto.
Qed.

End FactoryOpsMore.

Section FactoryOpsMoreExamples.

Import Factory FactoryOps.

Lemma default_may_be_unconfigured_witness :
  exists f',
    SetDefaultProvider gostring sampleFactory (str "ollama") = (None, f')
    /\ GetDefaultProviderName gostring f' = str "ollama"
    /\ providerCache f' = providerCache sampleFactory
    /\ modelCache f' = modelCache sampleFactory
    /\ GetDefaultProvider gostring f'
       = {| result := inr (LLMErr (NewLLMError ErrInvalidConfig
                                     (str "no configuration found for provider: "
                                      ++ str "ollama")
                                     (str "provider_creation") false 0 None));
            factory := f'; constructed := [] |}.
Proof.
  apply (default_may_be_unconfigured gostring sampleFactory (str "ollama")).
  - vm_compute. reflexivity.
  - vm_compute. reflexivity.
  - discriminate.
Defined.

Lemma listed_models_are_cached_witness :
  ListModels gostring sampleListModels
    (after (ListModels gostring sampleListModels configuredFactory (str "ollama")))
    (str "ollama")
  = {| listed := inl [ {| Name := str "http://localhost:11434" |} ];
       after := after (ListModels gostring sampleListModels configuredFactory
                         (str "ollama"));
       built := []; asked := [] |}.
Proof.
  apply (listed_models_are_cached gostring sampleListModels configuredFactory
           (str "ollama")).
  vm_compute. reflexivity.
Defined.

Lemma failed_listing_stores_nothing_witness :
  modelCache (after (ListModels gostring sampleListModels sampleFactory (str "ollama")))
  = modelCache sampleFactory.
Proof.
  apply (failed_listing_stores_nothing gostring sampleListModels sampleFactory
           (str "ollama")
           (WrapErr (str "failed to create provider for model listing")
              (LLMErr (NewLLMError ErrInvalidConfig
                         (str "no configuration found for provider: " ++ str "ollama")
                         (str "provider_creation") false 0 None)))).
  vm_compute. reflexivity.
Defined.

End FactoryOpsMoreExamples.

(** ** Validation and migration of configurations *)

Section ConfigMore.

Import Factory ConfigFile.

Lemma validateProvider_None (name : gostring) (pc : ProviderConfig) :
  validateProvider name pc = None <-> providerOK pc.
Proof.
  unfold validateProvider, providerOK.
  destruct (nonempty (Factory.DefaultModel pc)) eqn:Hm; cbn [negb].
  - assert (Hne : Factory.DefaultModel pc <> [])
      by (intros Heq; rewrite Heq in Hm; discriminate).
    destruct (Timeout pc <=? 0) eqn:Ht; [|destruct (RetryAttempts pc <? 0) eqn:Hr];
      split; try discriminate; try lia; intros; repeat split; auto; lia.
  - apply nonempty_false in Hm. split; [discriminate|]. intros [Hne _]. congruence.
Qed.

Lemma validateProviders_None (visited : list (gostring * ProviderConfig)) :
  validateProviders visited = None
  <-> forall name pc, (name, pc) ∈ visited -> providerOK pc.
Proof.
  induction visited as [|[name pc] rest IH]; cbn [validateProviders].
  - split; [|reflexivity]. intros _ name pc Hin. inversion Hin.
  - destruct (validateProvider name pc) as [err|] eqn:Hv.
    + split; [discriminate|]. intros Hall.
      assert (Hok : providerOK pc) by (apply (Hall name); left).
      apply validateProvider_None with (name := name) in Hok. congruence.
    + rewrite IH. apply validateProvider_None in Hv. split.
      * intros Hall n p Hin. apply elem_of_cons in Hin as [Heq|Hin];
          [injection Heq as -> ->; exact Hv|exact (Hall n p Hin)].
      * intros Hall n p Hin. apply (Hall n). right. exact Hin.
Qed.

(** X24. Whether [ValidateFactoryConfig] accepts does not depend on the
    order in which [range] visits the providers: for every visiting
    order it returns nil exactly when the default provider is named and
    configured and every configured provider has a default model, a
    positive timeout and no negative retry attempts. *)
Theorem validation_is_order_independent (c : FactoryConfig)
    (visited : list (gostring * ProviderConfig)) :
  visited ≡ₚ map_to_list (Providers c) ->
  (ValidateFactoryConfig visited c = None
   <-> DefaultProvider c <> []
       /\ is_Some (Providers c !! DefaultProvider c)
       /\ forall name pc, Providers c !! name = Some pc -> providerOK pc).
Proof.
  intros Hperm. unfold ValidateFactoryConfig.
  assert (Hall : validateProviders visited = None
                 <-> forall name pc, Providers c !! name = Some pc -> providerOK pc).
  { rewrite validateProviders_None. split; intros H name pc Hin.
    - apply (H name). rewrite Hperm. apply elem_of_map_to_list. exact Hin.
    - apply (H name). apply elem_of_map_to_list. rewrite <- Hperm. exact Hin. }
  destruct (nonempty (DefaultProvider c)) eqn:Hne; cbn [negb].
  - assert (Hname : DefaultProvider c <> [])
      by (intros Heq; rewrite Heq in Hne; discriminate).
    destruct (Nat.eqb (size (Providers c)) 0) eqn:Hsize.
    + apply Nat.eqb_eq, map_size_empty_inv in Hsize.
      split; [discriminate|]. intros (_ & [pc Hpc] & _).
      rewrite Hsize, lookup_empty in Hpc. discriminate.
    + destruct (Providers c !! DefaultProvider c) as [pc|] eqn:Hpc.
      * rewrite Hall. split.
        -- intros H. split; [exact Hname|]. split; [eauto|exact H].
        -- intros (_ & _ & H). exact H.
      * split; [discriminate|]. intros (_ & [pc Hsome] & _). discriminate.
  - apply nonempty_false in Hne. split; [discriminate|]. intros [Hname _]. congruence.
Qed.

Lemma validation_is_order_independent_witness :
  ValidateFactoryConfig (map_to_list (Providers sampleConfig)) sampleConfig = None
  <-> DefaultProvider sampleConfig <> []
      /\ is_Some (Providers sampleConfig !! DefaultProvider sampleConfig)
      /\ forall name pc, Providers sampleConfig !! name = Some pc -> providerOK pc.
Proof.
  apply (validation_is_order_independent sampleConfig
           (map_to_list (Providers sampleConfig))).
  reflexivity.
Defined.

(** X25. A configuration that [ValidateFactoryConfig] accepts, in
    whatever order it went through the providers, is accepted by
    [LoadConfig] of every factory. *)
Theorem validated_config_is_loaded (Provider : Type) (f : LLMFactory Provider)
    (c : FactoryConfig) (visited : list (gostring * ProviderConfig)) :
  ValidateFactoryConfig visited c = None ->
  LoadConfig Provider f c
  = (None, {| registry := registry f; config := c;
              providerCache := ∅; modelCache := ∅ |}).
Proof.
  unfold ValidateFactoryConfig, LoadConfig.
  destruct (negb (nonempty (DefaultProvider c))); [discriminate|].
  destruct (Nat.eqb (size (Providers c)) 0); [discriminate|].
  destruct (Providers c !! DefaultProvider c); [reflexivity|discriminate].
Qed.

Lemma validated_config_is_loaded_witness :
  LoadConfig gostring sampleFactory sampleConfig
  = (None, {| registry := registry sampleFactory; config := sampleConfig;
              providerCache := ∅; modelCache := ∅ |}).
Proof.
  apply (validated_config_is_loaded gostring sampleFactory sampleConfig
           (map_to_list (Providers sampleConfig))).
  vm_compute. reflexivity.
Defined.

(** X26. What [MigrateFromOldConfig] makes of a legacy configuration is
    accepted by [LoadConfig] whatever the legacy fields hold, and it is
    accepted by [ValidateFactoryConfig] exactly when the legacy default
    model is not empty; the host is not looked at by either. *)
Theorem migrated_config_loads (Provider : Type) (f : LLMFactory Provider)
    (oldConfig : Config) :
  fst (LoadConfig Provider f (MigrateFromOldConfig oldConfig)) = None
  /\ (ValidateFactoryConfig
        (map_to_list (Providers (MigrateFromOldConfig oldConfig)))
        (MigrateFromOldConfig oldConfig) = None
      <-> ConfigFile.DefaultModel oldConfig <> []).
Proof.
  unfold LoadConfig, ValidateFactoryConfig, MigrateFromOldConfig.
  cbn [DefaultProvider Providers].
  change (nonempty (str "ollama")) with true. cbn [negb].
  rewrite map_size_singleton, lookup_singleton_eq, map_to_list_singleton.
  cbn [Nat.eqb fst validateProviders]. split; [reflexivity|].
  unfold validateProvider. cbn [Factory.DefaultModel Timeout RetryAttempts].
  destruct (nonempty (ConfigFile.DefaultModel oldConfig)) eqn:Hm; cbn.
  - split; [|reflexivity]. intros _ Heq. rewrite Heq in Hm. discriminate.
  - apply nonempty_false in Hm. split; [discriminate|congruence].
Qed.

End ConfigMore.

(** ** The provider constructors *)

Lemma readDefaultModel_nonempty (config : gmap gostring Factory.ConfigValue)
    (default : gostring) :
  default <> [] -> readDefaultModel config default <> [].
Proof.
  intros Hd. unfold readDefaultModel.
  destruct (configString (config !! str "default_model")) as [m|]; [|exact Hd].
  destruct m; [exact Hd|discriminate].
Qed.

Lemma readTimeout_positive (config : gmap gostring Factory.ConfigValue) :
  0 < readTimeout config.
Proof.
  unfold readTimeout.
  destruct (configInt (config !! str "timeout")) as [t|]; [|lia].
  destruct (0 <? t) eqn:Ht; lia.
Qed.

Lemma readRetryAttempts_nonnegative (config : gmap gostring Factory.ConfigValue) :
  0 <= readRetryAttempts config.
Proof.
  unfold readRetryAttempts.
  destruct (configInt (config !! str "retry_attempts")) as [r|]; [|lia].
  destruct (0 <=? r) eqn:Hr; lia.
Qed.

Lemma configMap_hidden (pc : Factory.ProviderConfig) (key value : gostring) :
  Factory.ExtraSettings pc !! key = Some value ->
  Factory.configMap pc !! key = Some (Factory.VString value).
Proof.
  intros H. unfold Factory.configMap.
  apply lookup_union_Some_l. rewrite lookup_fmap, H. reflexivity.
Qed.

Lemma configMap_standard (pc : Factory.ProviderConfig) (key : gostring) :
  Factory.ExtraSettings pc !! key = None ->
  Factory.configMap pc !! key
  = (<[str "host" := Factory.VString (Factory.Host pc)]>
     (<[str "api_key" := Factory.VString (Factory.APIKey pc)]>
     (<[str "default_model" := Factory.VString (Factory.DefaultModel pc)]>
     (<[str "timeout" := Factory.VInt (Factory.Timeout pc)]>
     (<[str "retry_attempts" := Factory.VInt (Factory.RetryAttempts pc)]>
     (<[str "rate_limit" := Factory.VInt (Factory.RateLimit pc)]>
        (∅ : gmap gostring Factory.ConfigValue))))))) !! key.
Proof.
  intros H. unfold Factory.configMap.
  apply lookup_union_r. rewrite lookup_fmap, H. reflexivity.
Qed.

Ltac standard_key :=
  repeat (rewrite lookup_insert_ne by discriminate); rewrite lookup_insert_eq.

Section GoogleProviderMore.

Import GoogleProvider.
Variable Client : Type.
Variable newClient : gostring -> Client + gostring.

(** X27. The Google [NewProvider] returns a provider only for a map
    whose [api_key] is a non-empty string that [genai.NewClient]
    accepts; the provider it returns has a default model, a positive
    timeout and the policy of 2s, 30s with a [MaxRetries] that is not
    negative, so that its [Chat] makes at least one call and at most
    [MaxRetries + 1], and returns what the last attempt ended with. *)
Theorem google_provider_is_sane (config : gmap gostring Factory.ConfigValue)
    (p : Provider Client) :
  NewProvider Client newClient config = inl p ->
  (exists key, config !! str "api_key" = Some (Factory.VString key)
               /\ key <> [] /\ newClient key = inl (client p))
  /\ defaultModel p <> [] /\ 0 < timeout p
  /\ 0 <= MaxRetries (retryConfig p)
  /\ BaseDelay (retryConfig p) = 2 * Second
  /\ MaxDelay (retryConfig p) = 30 * Second
  /\ forall (Data : Type) (jsonUnmarshalOK : gostring -> bool) (call : Z -> Reply)
            (request : ChatRequest Data),
       exists n, (1 <= n)%nat /\ Z.of_nat n <= MaxRetries (retryConfig p) + 1
         /\ RunOf (retryConfig p) (googleAttempt jsonUnmarshalOK call request) 0 n
              (Chat Client Data jsonUnmarshalOK call p request).
Proof.
  unfold NewProvider.
  destruct (config !! str "api_key") as [[key|n]|] eqn:Hkey; cbn [configString];
    try discriminate.
  destruct key as [|c key]; cbn [nonempty]; [discriminate|].
  destruct (newClient (c :: key)) as [cl|errText] eqn:Hcl; [|discriminate].
  intros [= <-]. cbn [client defaultModel timeout retryConfig].
  split; [exists (c :: key); repeat split; [discriminate|exact Hcl]|].
  split; [apply readDefaultModel_nonempty; discriminate|].
  split; [apply readTimeout_positive|].
  split; [apply readRetryAttempts_nonnegative|].
  split; [reflexivity|]. split; [reflexivity|].
  intros Data jsonUnmarshalOK call request. unfold Chat. cbn [retryConfig].
  apply Google_ChatWithRetry_RunOf. apply readRetryAttempts_nonnegative.
Qed.

End GoogleProviderMore.

Lemma google_provider_is_sane_witness :
  exists key,
    Factory.configMap sampleProviderConfig !! str "api_key"
    = Some (Factory.VString key)
    /\ key <> [] /\ anyClient key = inl (str "k").
Proof.
  apply (google_provider_is_sane gostring anyClient
           (Factory.configMap sampleProviderConfig)
           {| GoogleProvider.client := str "k";
              GoogleProvider.defaultModel := str "gemini-2.0-flash";
              GoogleProvider.timeout := 60;
              GoogleProvider.retryConfig := newRetryConfig 3 |}).
  vm_compute. reflexivity.
Defined.

Section OllamaProviderMore.

Import OllamaProvider.
Variable URL : Type.
Variable urlParse : gostring -> URL + gostring.
Variable localURL : URL.

(** X28. From a provider configuration to the Ollama provider that
    [CreateProviderFromConfig] has built from it: a field that
    validation would refuse is replaced by the default (host
    [http://localhost:11434], model [llama3.1:latest], 60 seconds, 3
    retries), and an extra setting named [timeout] or [retry_attempts],
    being a string, does not set the value but brings the default in
    whatever the field holds. *)
Theorem ollama_provider_from_config (pc : Factory.ProviderConfig)
    (p : Provider URL) :
  NewProvider URL urlParse localURL (Factory.configMap pc) = inl p ->
  (Factory.ExtraSettings pc !! str "host" = None ->
   host p = if nonempty (Factory.Host pc) then Factory.Host pc
            else str "http://localhost:11434")
  /\ (Factory.ExtraSettings pc !! str "default_model" = None ->
      defaultModel p = if nonempty (Factory.DefaultModel pc)
                       then Factory.DefaultModel pc else str "llama3.1:latest")
  /\ (Factory.ExtraSettings pc !! str "timeout" = None ->
      timeout p = if 0 <? Factory.Timeout pc then Factory.Timeout pc else 60)
  /\ (Factory.ExtraSettings pc !! str "retry_attempts" = None ->
      MaxRetries (retryConfig p)
      = if 0 <=? Factory.RetryAttempts pc then Factory.RetryAttempts pc else 3)
  /\ (is_Some (Factory.ExtraSettings pc !! str "timeout") -> timeout p = 60)
  /\ (is_Some (Factory.ExtraSettings pc !! str "retry_attempts") ->
      MaxRetries (retryConfig p) = 3)
  /\ Factory.Name (model (client p)) = defaultModel p.
Proof.
  unfold NewProvider.
  destruct (urlParse _) as [hostURL|errText]; [|discriminate].
  intros [= <-]. cbn [host defaultModel timeout retryConfig client model].
  unfold newRetryConfig. cbn [MaxRetries NewClient model Factory.Name].
  unfold readDefaultModel, readTimeout, readRetryAttempts.
  repeat split.
  - intros H. rewrite (configMap_standard pc _ H). standard_key. reflexivity.
  - intros H. rewrite (configMap_standard pc _ H). standard_key. reflexivity.
  - intros H. rewrite (configMap_standard pc _ H). standard_key. reflexivity.
  - intros H. rewrite (configMap_standard pc _ H). standard_key. reflexivity.
  - intros [value H]. rewrite (configMap_hidden pc _ _ H). reflexivity.
  - intros [value H]. rewrite (configMap_hidden pc _ _ H). reflexivity.
Qed.

(** X29. The Ollama provider keeps two clients: the one its [Chat] goes
    through is that of [NewClient], at the built-in local address
    whatever host was configured, and only the direct client is at the
    parsed host.  [Chat] of a built provider makes at least one call;
    after an [UpdateRetryConfig] with a negative [MaxRetries] it makes
    none and returns the zero response with a nil error, while a nil
    policy is ignored. *)
Theorem ollama_chat_goes_to_local_address
    (config : gmap gostring Factory.ConfigValue) (p : Provider URL) :
  NewProvider URL urlParse localURL config = inl p ->
  base (ollamaClient (client p)) = localURL
  /\ urlParse (host p) = inl (base (directClient p))
  /\ 0 <= MaxRetries (retryConfig p)
  /\ UpdateRetryConfig URL p None = p
  /\ forall (Data : Type) (jsonUnmarshalOK : gostring -> bool)
            (call : URL -> Z -> Reply) (request : ChatRequest Data),
       Chat URL Data jsonUnmarshalOK call p request
       = Ollama.ChatWithRetry Data jsonUnmarshalOK (call localURL) request
           (retryConfig p)
       /\ (exists n, (1 <= n)%nat /\ Z.of_nat n <= MaxRetries (retryConfig p) + 1
             /\ RunOf (retryConfig p)
                  (ollamaAttempt jsonUnmarshalOK (call localURL) request) 0 n
                  (Chat URL Data jsonUnmarshalOK call p request))
       /\ forall policy, MaxRetries policy < 0 ->
            Chat URL Data jsonUnmarshalOK call
              (UpdateRetryConfig URL p (Some policy)) request
            = {| run_response := emptyResponse; run_error := None;
                 run_events := [] |}.
Proof.
  unfold NewProvider.
  destruct (urlParse _) as [hostURL|errText] eqn:Hparse; [|discriminate].
  intros [= <-]. cbn [host client ollamaClient base directClient retryConfig NewClient].
  split; [reflexivity|]. split; [exact Hparse|].
  split; [apply readRetryAttempts_nonnegative|]. split; [reflexivity|].
  intros Data jsonUnmarshalOK call request. unfold Chat.
  cbn [UpdateRetryConfig client ollamaClient base retryConfig NewClient].
  split; [reflexivity|]. split.
  - apply Ollama_ChatWithRetry_RunOf. apply readRetryAttempts_nonnegative.
  - intros policy Hneg. unfold Ollama.ChatWithRetry.
    replace (Z.to_nat (MaxRetries policy + 1)) with O by lia. reflexivity.
Qed.

End OllamaProviderMore.

Lemma ollama_provider_from_config_witness :
  OllamaProvider.timeout sampleOllamaProvider = 60
  /\ MaxRetries (OllamaProvider.retryConfig sampleOllamaProvider) = 3
  /\ OllamaProvider.host sampleOllamaProvider = str "http://10.0.0.5:11434".
Proof.
  destruct (ollama_provider_from_config gostring anyURL (str "localhost:11434")
              sampleProviderConfig sampleOllamaProvider)
    as (Hhost & _ & Htimeout & _ & _ & Hretry & _).
  - vm_compute. reflexivity.
  - split; [|split].
    + rewrite Htimeout by (vm_compute; reflexivity). reflexivity.
    + apply Hretry. eexists. vm_compute. reflexivity.
    + rewrite Hhost by (vm_compute; reflexivity). reflexivity.
Defined.

Lemma ollama_chat_goes_to_local_address_witness :
  OllamaProvider.base
    (OllamaProvider.ollamaClient (OllamaProvider.client sampleOllamaProvider))
  = str "localhost:11434"
  /\ OllamaProvider.host sampleOllamaProvider = str "http://10.0.0.5:11434".
Proof.
  destruct (ollama_chat_goes_to_local_address gostring anyURL (str "localhost:11434")
              (Factory.configMap sampleProviderConfig) sampleOllamaProvider)
    as (Hbase & _).
  - vm_compute. reflexivity.
  - split; [exact Hbase|reflexivity].
Defined.

(** ** The message conversion of the Google provider *)

Lemma runes_eqb_true (a b : gostring) : runes_eqb a b = true -> a = b.
Proof.
  revert b. induction a as [|x a IH]; intros [|y b]; cbn; try discriminate; auto.
  intros H. apply andb_true_iff in H as [Hx Hab].
  apply Z.eqb_eq in Hx. f_equal; auto.
Qed.

Lemma roleOf_sentAs (msg : Message) :
  {| GoogleProvider.contentText := Content msg;
     GoogleProvider.contentRole := GoogleProvider.roleOf msg |} = sentAs msg.
Proof.
  unfold sentAs, GoogleProvider.roleOf. f_equal.
  destruct (runes_eqb (Role msg) (str "user")) eqn:Hu.
  - apply runes_eqb_true in Hu. rewrite Hu. reflexivity.
  - destruct (runes_eqb (Role msg) (str "assistant")); [reflexivity|].
    destruct (runes_eqb (Role msg) (str "system")); reflexivity.
Qed.

Lemma convertLoop_keeps (messages : list Message) (systemPrompt : gostring)
    (hasSystem : bool) (contents : list GoogleProvider.GenaiContent) :
  (forall msg, In msg messages -> GoogleProvider.isSystem msg = true ->
               hasSystem = true) ->
  GoogleProvider.convertLoop messages systemPrompt hasSystem contents
  = contents ++ map sentAs messages.
Proof.
  revert contents. induction messages as [|msg rest IH]; intros contents Hsys.
  - cbn. rewrite app_nil_r. reflexivity.
  - cbn [GoogleProvider.convertLoop].
    assert (Hskip : GoogleProvider.isSystem msg && nonempty systemPrompt
                    && negb hasSystem = false).
    { destruct (GoogleProvider.isSystem msg) eqn:Hmsg; [|reflexivity].
      rewrite (Hsys msg (or_introl eq_refl) Hmsg).
      destruct (nonempty systemPrompt); reflexivity. }
    rewrite Hskip.
    rewrite (IH _ (fun m Hin => Hsys m (or_intror Hin))).
    rewrite roleOf_sentAs, <- app_assoc. reflexivity.
Qed.

Lemma hasSystemInMessages_true (messages : list Message) (msg : Message) :
  In msg messages -> GoogleProvider.isSystem msg = true ->
  GoogleProvider.hasSystemInMessages messages = true.
Proof.
  induction messages as [|m rest IH]; [intros []|].
  intros [->|Hin] Hsys; cbn [GoogleProvider.hasSystemInMessages].
  - rewrite Hsys. reflexivity.
  - destruct (GoogleProvider.isSystem m); auto.
Qed.

(** X30. The Google [convertMessages] never drops a message: the branch
    that skips system messages asks for a system message in a list that
    holds none, so every message is sent, in order, with its own text,
    the assistant's under the model role and all others, system
    messages included, under the user role; the system prompt it is
    given has no effect on the result. *)
Theorem convertMessages_keeps_every_message (messages : list Message)
    (systemPrompt : gostring) :
  GoogleProvider.convertMessages messages systemPrompt = map sentAs messages.
Proof.
  unfold GoogleProvider.convertMessages.
  rewrite convertLoop_keeps; [reflexivity|].
  intros msg Hin Hsys. exact (hasSystemInMessages_true messages msg Hin Hsys).
Qed.
